(** * flask_adminex.ext.sqlamodel: the SQLAlchemy model view

    A shallow embedding of [src/flask_adminex/ext/sqlamodel.py]: the
    scaffolding of list and sortable columns from the mapper's properties,
    the conversion of relationship properties to select fields, and the
    CRUD handlers that forward to the ORM session.

    Python dictionaries are [gmap]s, Python sets are [gset]s, a raised
    exception is an explicit result, and the handlers that talk to the
    session run in a small state-and-exception monad over the state of the
    ORM and the list of flashed messages. *)

From stdpp Require Import gmap strings list.
From Stdlib Require Import ZArith Ascii String.

Open Scope string_scope.
Open Scope Z_scope.

(** ** Python values and exceptions *)

Module Py.

(** The exception classes the code can meet. [except Exception] matches the
    classes below [Exception]; [KeyboardInterrupt], [SystemExit] and
    [GeneratorExit] derive from [BaseException] only. *)
Inductive exn_class : Type :=
| BaseException
| KeyboardInterrupt
| SystemExit
| GeneratorExit
| Exception
| IndexError
| TypeError
| ExceptionSubclass (name : string).

(** [isinstance(ex, Exception)]. *)
Definition is_Exception (c : exn_class) : bool :=
  match c with
  | BaseException | KeyboardInterrupt | SystemExit | GeneratorExit => false
  | Exception | IndexError | TypeError | ExceptionSubclass _ => true
  end.

(** A raised exception: its class, the text of its message, and what
    computing [str(ex)] raises, when it raises: its class and message. In
    Python 2 that is a [UnicodeEncodeError] for a unicode message with a
    character outside ASCII. *)
Record exn : Type := mk_exn {
  exn_cls : exn_class;
  exn_str : string;
  exn_str_error : option (exn_class * string)
}.

(** The outcome of a call that may raise. *)
Inductive result (A : Type) : Type :=
| Ok (a : A)
| Raised (e : exn).
Arguments Ok {A} a.
Arguments Raised {A} e.

(** [str(ex)]: the text of the message, unless computing it raises. *)
Definition str (ex : exn) : result string :=
  match exn_str_error ex with
  | Some (cls, message) => Raised (mk_exn cls message None)
  | None => Ok (exn_str ex)
  end.

(** [l[i]] on a Python list. *)
Definition index_out_of_range : exn :=
  mk_exn IndexError "list index out of range" None.

Definition getitem {A : Type} (l : list A) (i : nat) : result A :=
  match l !! i with
  | Some x => Ok x
  | None => Raised index_out_of_range
  end.

(** The values that keyword arguments of a form field hold. *)
#[warnings="-register-all"]
Inductive value : Type :=
| VNone
| VBool (b : bool)
| VInt (z : Z)
| VStr (s : string)
| VList (l : list value).

(** Truth value of a set: a set is true when it is not empty. *)
Definition truthy_set (s : gset string) : bool := bool_decide (s ≠ ∅).

(** Truth value of an optional dictionary ([None] and [{}] are false). *)
Definition truthy_dict {V : Type} (d : option (gmap string V)) : bool :=
  match d with
  | None => false
  | Some m => bool_decide (m ≠ ∅)
  end.

End Py.
Export Py.

(** ** The mapper metadata the view reads *)

(** A table column, reduced to the attributes the code reads. *)
Record Column : Type := mk_column {
  nullable : bool;
  primary_key : bool;
  foreign_keys : gset string
}.

(** [prop.direction] of a relationship. *)
Inductive Direction : Type := MANYTOONE | ONETOMANY | MANYTOMANY.

(** A property of the mapper. [isinstance] separates relationship
    properties, column properties and the other kinds (synonyms,
    composites), of which only the key matters here. *)
Inductive MapperProperty : Type :=
| RelationshipProperty (key : string) (direction : Direction)
    (local_remote_pairs : list (Column * Column)) (remote_model : string)
| ColumnProperty (key : string) (columns : list Column)
| OtherProperty (key : string).

Definition prop_key (p : MapperProperty) : string :=
  match p with
  | RelationshipProperty key _ _ _ => key
  | ColumnProperty key _ => key
  | OtherProperty key => key
  end.

(** A mapped class: [model.__name__] and
    [model._sa_class_manager.mapper.iterate_properties]. *)
Record Model : Type := mk_model {
  model_name : string;
  iterate_properties : list MapperProperty
}.

(** [column.foreign_keys or column.primary_key], as a condition. *)
Definition is_key_column (column : Column) : bool :=
  truthy_set (foreign_keys column) || primary_key column.

(** ** Queries and the view *)

(** A sort field of [_sortable_columns] is a string, an instrumented
    attribute of some entity, or any other object. *)
Record InstrumentedAttribute : Type := mk_attr {
  parententity : string;
  attr_key : string
}.

Inductive SortField : Type :=
| SortString (s : string)
| SortAttribute (a : InstrumentedAttribute)
| SortOther.

(** What [query.join] is given: the name of a relationship, or an entity. *)
Inductive JoinTarget : Type :=
| JoinName (name : string)
| JoinEntity (entity : string).

(** What [query.order_by] is given: [sort_field] or [desc(sort_field)]. *)
Inductive OrderClause : Type :=
| Asc (f : SortField)
| Desc (f : SortField).

(** A query object: the entity it selects and the clauses set on it so far.
    [order_by], [offset] and [limit] are generative: each returns the query
    with one clause more. *)
Record Query : Type := mk_query {
  q_entity : string;
  q_joins : list JoinTarget;
  q_order_by : list OrderClause;
  q_offset : option Z;
  q_limit : option Z
}.

(** [session.query(model)]. *)
Definition session_query (m : Model) : Query :=
  mk_query (model_name m) [] [] None None.

Definition order_by (c : OrderClause) (q : Query) : Query :=
  mk_query (q_entity q) (q_joins q) (q_order_by q ++ [c]) (q_offset q) (q_limit q).

Definition offset (n : Z) (q : Query) : Query :=
  mk_query (q_entity q) (q_joins q) (q_order_by q) (Some n) (q_limit q).

Definition limit (n : Z) (q : Query) : Query :=
  mk_query (q_entity q) (q_joins q) (q_order_by q) (q_offset q) (Some n).

(** The attributes of the view that the converter and the handlers read. *)
Record View : Type := mk_view {
  model : Model;
  hide_backrefs : bool;
  page_size : Z;
  _sortable_columns : gmap string SortField
}.

(** ** Form conversion *)

Module AdminModelConverter.

(** A field given by [convert]. The closure [query_factory] of a select
    field returns [view.session.query(remote_model)]: it is recorded as the
    model it queries. [BaseField] is what the inherited [convert] builds. *)
Inductive Field (BaseField : Type) : Type :=
| QuerySelectField (query_factory : string) (kwargs : gmap string value)
| QuerySelectMultipleField (query_factory : string) (kwargs : gmap string value)
| Inherited (f : BaseField).
Arguments QuerySelectField {BaseField} query_factory kwargs.
Arguments QuerySelectMultipleField {BaseField} query_factory kwargs.
Arguments Inherited {BaseField} f.

(** The keyword arguments before [field_args] is merged in. *)
Definition default_kwargs (local_column : Column) : gmap string value :=
  {[ "validators" := VList [];
     "filters" := VList [];
     "allow_blank" := VBool (nullable local_column);
     "default" := VNone ]}.

(** [if field_args: kwargs.update(field_args)]: the entries of [field_args]
    replace those of [kwargs]. *)
Definition update_kwargs (kwargs : gmap string value)
    (field_args : option (gmap string value)) : gmap string value :=
  match field_args with
  | Some args => if truthy_dict field_args then args ∪ kwargs else kwargs
  | None => kwargs
  end.

(** A call [F(query_factory=query_factory, **kwargs)]: a key
    [query_factory] in [kwargs] gives the keyword twice, which Python
    refuses at the call. *)
Definition duplicate_keyword : exn :=
  mk_exn TypeError
    "type object got multiple values for keyword argument 'query_factory'" None.

Definition call_with_query_factory {A : Type}
    (F : string → gmap string value → A)
    (query_factory : string) (kwargs : gmap string value) : result A :=
  match kwargs !! "query_factory" with
  | Some _ => Raised duplicate_keyword
  | None => Ok (F query_factory kwargs)
  end.

Section convert.

Context {BaseField : Type}.

(** [ModelConverter.convert] of the form library, for the properties that
    are left to it. *)
Variable super_convert :
  MapperProperty → option (gmap string value) → result (option BaseField).

Definition convert (view : View) (prop : MapperProperty)
    (field_args : option (gmap string value))
  : result (option (Field BaseField)) :=
  match prop with
  | RelationshipProperty _ direction local_remote_pairs remote_model =>
      match getitem local_remote_pairs 0 with
      | Raised e => Raised e
      | Ok (local_column, _) =>
          let kwargs := update_kwargs (default_kwargs local_column) field_args in
          match direction with
          | MANYTOONE =>
              match call_with_query_factory QuerySelectField remote_model kwargs with
              | Raised e => Raised e
              | Ok f => Ok (Some f)
              end
          | ONETOMANY =>
              if negb (truthy_set (foreign_keys local_column)) && hide_backrefs view
              then Ok None
              else
                match call_with_query_factory QuerySelectMultipleField
                        remote_model kwargs with
                | Raised e => Raised e
                | Ok f => Ok (Some f)
                end
          | MANYTOMANY => Ok None
          end
      end
  | ColumnProperty _ columns =>
      match getitem columns 0 with
      | Raised e => Raised e
      | Ok column =>
          if is_key_column column
          then Ok None
          else
            match super_convert prop field_args with
            | Raised e => Raised e
            | Ok f => Ok (Inherited <$> f)
            end
      end
  | OtherProperty _ =>
      match super_convert prop field_args with
      | Raised e => Raised e
      | Ok f => Ok (Inherited <$> f)
      end
  end.

End convert.

End AdminModelConverter.

(** ** Effects: the ORM, flashed messages, exceptions *)

(** What a handler runs against: the state of the ORM (session, identity
    map, database), of a type [W] the ORM chooses, and the messages flashed
    so far, each with its category. *)
Record world (W : Type) : Type := mk_world {
  orm : W;
  flashes : list (string * string)
}.
Arguments mk_world {W} orm flashes.
Arguments orm {W} w.
Arguments flashes {W} w.

(** A computation that reads and changes the world and returns or raises. *)
Definition M (W A : Type) : Type := world W → result A * world W.

#[global] Instance M_ret {W} : MRet (M W) := λ A a w, (Ok a, w).

#[global] Instance M_bind {W} : MBind (M W) := λ A B f c w,
  match c w with
  | (Ok a, w') => f a w'
  | (Raised e, w') => (Raised e, w')
  end.

(** A pure step that may raise. *)
Definition lift_result {W A} (r : result A) : M W A := λ w, (r, w).

(** A call into the ORM: it works on the ORM's state alone. *)
Definition orm_call {W A} (f : W → result A * W) : M W A := λ w,
  let '(r, o) := f (orm w) in (r, mk_world o (flashes w)).

(** What [flash] needs of the web framework: a request and a session to
    keep the messages in. [flash_error] is what [flash(message, category)]
    raises in a world where it cannot store the message, if there is
    anything it raises. *)
Class Flask (W : Type) : Type := {
  flash_error : world W → string → string → option exn
}.

(** [flash(message, category)]: the message joins the flashed messages,
    unless the call raises. *)
Definition flash {W} `{!Flask W} (message category : string) : M W unit := λ w,
  match flash_error w message category with
  | Some e => (Raised e, w)
  | None => (Ok tt, mk_world (orm w) (flashes w ++ [(message, category)]))
  end.

(** [try: body / except Exception, ex: handler]: the handler runs for the
    instances of [Exception]; any other exception goes on to the caller. *)
Definition try_except {W A} (body : M W A) (handler : exn → M W A) : M W A := λ w,
  match body w with
  | (Ok a, w') => (Ok a, w')
  | (Raised ex, w') =>
      if is_Exception (exn_cls ex) then handler ex w' else (Raised ex, w')
  end.

(** The calls the view makes into the ORM and the form library. [Obj] are
    the model instances (references: their attributes live in the ORM's
    state), [Form] the forms. Each call may raise and may change the ORM's
    state. *)
Class Orm (W Obj Form : Type) : Type := {
  (** [self.model()] *)
  new_model : Model → W → result Obj * W;
  (** [form.populate_obj(model)] *)
  populate_obj : Form → Obj → W → result unit * W;
  (** [query.count()] *)
  query_count : Query → W → result Z * W;
  (** [query.join(target)] *)
  query_join : JoinTarget → Query → W → result Query * W;
  (** [query.all()] *)
  query_all : Query → W → result (list Obj) * W;
  (** [query.get(id)] *)
  query_get : Query → value → W → result (option Obj) * W;
  (** [session.add(model)] *)
  session_add : Obj → W → result unit * W;
  (** [session.commit()] *)
  session_commit : W → result unit * W;
  (** [session.delete(model)] *)
  session_delete : Obj → W → result unit * W
}.

(** ** Strings *)

(** ['.' in s]. *)
Fixpoint contains_dot (s : string) : bool :=
  match s with
  | EmptyString => false
  | String c s' => if Ascii.eqb c "."%char then true else contains_dot s'
  end.

(** [s.split('.', 1)]: one piece when [s] has no dot, else the text before
    the first dot and the text after it. *)
Fixpoint split_dot_1 (s : string) : list string :=
  match s with
  | EmptyString => [""]
  | String c s' =>
      if Ascii.eqb c "."%char then [""; s']
      else match split_dot_1 s' with
           | [] => [String c ""]
           | p :: ps => String c p :: ps
           end
  end.

(** ** Scaffolding *)

Module ModelView.

(** The loop of [scaffold_list_columns], with [columns] the list built so
    far. *)
Fixpoint list_columns_loop (ps : list MapperProperty) (columns : list string)
  : result (list string) :=
  match ps with
  | [] => Ok columns
  | RelationshipProperty key direction _ _ :: ps' =>
      match direction with
      | MANYTOONE => list_columns_loop ps' (columns ++ [key])
      | _ => list_columns_loop ps' columns
      end
  | ColumnProperty key cols :: ps' =>
      match getitem cols 0 with
      | Raised e => Raised e
      | Ok column =>
          if is_key_column column
          then list_columns_loop ps' columns
          else list_columns_loop ps' (columns ++ [key])
      end
  | OtherProperty _ :: ps' => list_columns_loop ps' columns
  end.

Definition scaffold_list_columns (self : View) : result (list string) :=
  list_columns_loop (iterate_properties (model self)) [].

(** The exception of the sanity check on multi-column properties. *)
Definition multi_column_error (model : Model) (key : string) : exn :=
  mk_exn Exception
    ("Automatic form scaffolding is not supported"
       ++ " for multi-column properties (" ++ model_name model ++ "." ++ key ++ ")")
    None.

(** The loop of [scaffold_sortable_columns], with [columns] the dictionary
    built so far. *)
Fixpoint sortable_columns_loop (model : Model) (ps : list MapperProperty)
    (columns : gmap string string) : result (gmap string string) :=
  match ps with
  | [] => Ok columns
  | ColumnProperty key cols :: ps' =>
      if bool_decide (1 < List.length cols)%nat
      then Raised (multi_column_error model key)
      else
        match getitem cols 0 with
        | Raised e => Raised e
        | Ok column =>
            if is_key_column column
            then sortable_columns_loop model ps' columns
            else sortable_columns_loop model ps' (<[key := key]> columns)
        end
  | _ :: ps' => sortable_columns_loop model ps' columns
  end.

Definition scaffold_sortable_columns (self : View)
  : result (gmap string string) :=
  sortable_columns_loop (model self) (iterate_properties (model self)) ∅.



(** ** Database-related API and model handlers *)

Section handlers.

Context {W Obj Form : Type} `{!Orm W Obj Form} `{!Flask W}.

(** The sorting step of [get_list]: the query with its join and ordering. *)
Definition get_list_sorting (self : View) (sort_column : option string)
    (sort_desc : bool) (query : Query) : M W Query :=
  match sort_column with
  | None => mret query
  | Some sort_column =>
      match _sortable_columns self !! sort_column with
      | None => mret query
      | Some sort_field =>
          '(query, sort_field) ←
            match sort_field with
            | SortString s =>
                if contains_dot s
                then
                  let parts := split_dot_1 s in
                  name ← lift_result (getitem parts 0);
                  query ← orm_call (query_join (JoinName name) query);
                  mret (query, Some sort_field)
                else mret (query, Some sort_field)
            | SortAttribute a =>
                query ← orm_call (query_join (JoinEntity (parententity a)) query);
                mret (query, Some sort_field)
            | SortOther => mret (query, None)
            end;
          match sort_field with
          | None => mret query
          | Some sort_field =>
              if sort_desc
              then mret (order_by (Desc sort_field) query)
              else mret (order_by (Asc sort_field) query)
          end
      end
  end.

(** The pagination step of [get_list]. *)
Definition get_list_pagination (self : View) (page : option Z) (query : Query)
  : Query :=
  let query :=
    match page with
    | Some page => offset (page * page_size self) query
    | None => query
    end in
  limit (page_size self) query.

(** [get_list] returns the count and, as [execute] says, the rows or the
    query. *)
Definition get_list (self : View) (page : option Z) (sort_column : option string)
    (sort_desc : bool) (execute : bool) : M W (Z * (Query + list Obj)) :=
  let query := session_query (model self) in
  count ← orm_call (query_count query);
  query ← get_list_sorting self sort_column sort_desc query;
  let query := get_list_pagination self page query in
  if execute
  then rows ← orm_call (query_all query); mret (count, inr rows)
  else mret (count, inl query).

Definition get_one (self : View) (id : value) : M W (option Obj) :=
  orm_call (query_get (session_query (model self)) id).

(** The body of the [try] of [create_model]. *)
Definition create_model_try (self : View) (form : Form) : M W bool :=
  obj ← orm_call (new_model (model self));
  orm_call (populate_obj form obj);;
  orm_call (session_add obj);;
  orm_call session_commit;;
  mret true.

Definition create_model (self : View) (form : Form) : M W bool :=
  try_except (create_model_try self form)
    (λ ex, text ← lift_result (str ex);
           flash ("Failed to create model. " ++ text) "error";;
           mret false).

(** The body of the [try] of [update_model]. *)
Definition update_model_try (form : Form) (obj : Obj) : M W bool :=
  orm_call (populate_obj form obj);;
  orm_call session_commit;;
  mret true.

Definition update_model (self : View) (form : Form) (obj : Obj) : M W bool :=
  try_except (update_model_try form obj)
    (λ ex, text ← lift_result (str ex);
           flash ("Failed to update model. " ++ text) "error";;
           mret false).

(** [delete_model] has no [return]: it gives [None]. *)
Definition delete_model (self : View) (obj : Obj) : M W unit :=
  orm_call (session_delete obj);;
  orm_call session_commit.

End handlers.

End ModelView.

(** ** What the claims assume of the ORM *)

(** The session is transactional over a persistent part [persistent] of the
    ORM's state: building and populating an instance and adding it to the
    session work on the session alone, and a commit that fails is rolled
    back by the ORM. *)
Class Transactional {W Obj Form D : Type} `{!Orm W Obj Form}
    (persistent : W → D) : Prop := {
  new_model_persistent m o r o' :
    new_model m o = (r, o') → persistent o' = persistent o;
  populate_obj_persistent form obj o r o' :
    populate_obj form obj o = (r, o') → persistent o' = persistent o;
  session_add_persistent obj o r o' :
    session_add obj o = (r, o') → persistent o' = persistent o;
  session_commit_rolled_back o e o' :
    session_commit o = (Raised e, o') → persistent o' = persistent o
}.

(** The rows of a model are [table_rows]: counting a query with no clause
    gives their number, and a query limited to [n] rows gives at most [n]. *)
Class Counting {W Obj Form : Type} `{!Orm W Obj Form}
    (table_rows : W → Model → list Obj) : Prop := {
  count_all_rows m o c o' :
    query_count (session_query m) o = (Ok c, o') →
    c = Z.of_nat (List.length (table_rows o m));
  all_within_limit q n o rows o' :
    q_limit q = Some n →
    query_all q o = (Ok rows, o') →
    Z.of_nat (List.length rows) ≤ n
}.

(** ** An ORM in memory

    A small session over one table, used to run the handlers on concrete
    inputs. Instances are numbered; [memory] holds the attribute of each
    instance, [stored] the committed rows, [pending] and [doomed] the
    instances to insert and to delete at the next commit, and
    [commit_error] the error the database will answer the next commit
    with, if any. *)
Module MemoryOrm.

Record state : Type := mk_state {
  memory : gmap nat Z;
  stored : gmap nat Z;
  pending : list nat;
  doomed : list nat;
  fresh_id : nat;
  commit_error : option exn
}.

Definition error (cls message : string) : exn :=
  mk_exn (ExceptionSubclass cls) message None.

Definition rows (s : state) : list nat := (map_to_list (stored s)).*1.

(** The rows a query gives: the offset is skipped and the limit applied; a
    negative limit is refused. *)
Definition run_query (q : Query) (s : state) : result (list nat) :=
  let rs := match q_offset q with
            | Some n => drop (Z.to_nat n) (rows s)
            | None => rows s
            end in
  match q_limit q with
  | Some n =>
      if bool_decide (n < 0)
      then Raised (error "ProgrammingError" "LIMIT must not be negative")
      else Ok (take (Z.to_nat n) rs)
  | None => Ok rs
  end.

Definition flush (s : state) : gmap nat Z :=
  let kept := filter (λ kv, kv.1 ∉ doomed s) (stored s) in
  let updated := map_imap (λ k v, Some (default v (memory s !! k))) kept in
  foldr (λ obj t, <[obj := default 0 (memory s !! obj)]> t) updated (pending s).

#[global] Instance memory_orm : Orm state nat Z := {|
  new_model _ s :=
    (Ok (fresh_id s),
     mk_state (<[fresh_id s := 0]> (memory s)) (stored s) (pending s) (doomed s)
       (S (fresh_id s)) (commit_error s));
  populate_obj form obj s :=
    if bool_decide (form < 0)
    then (Raised (error "ValueError" "Not a valid value"), s)
    else (Ok tt,
          mk_state (<[obj := form]> (memory s)) (stored s) (pending s) (doomed s)
            (fresh_id s) (commit_error s));
  query_count q s :=
    (match run_query q s with
     | Ok rs => Ok (Z.of_nat (List.length rs))
     | Raised e => Raised e
     end, s);
  query_join target q s :=
    (Ok (mk_query (q_entity q) (q_joins q ++ [target]) (q_order_by q)
           (q_offset q) (q_limit q)), s);
  query_all q s := (run_query q s, s);
  query_get q id s :=
    (match id with
     | VInt z => Ok (match stored s !! Z.to_nat z with
                     | Some _ => Some (Z.to_nat z)
                     | None => None
                     end)
     | _ => Ok None
     end, s);
  session_add obj s :=
    (Ok tt,
     mk_state (memory s) (stored s) (pending s ++ [obj]) (doomed s)
       (fresh_id s) (commit_error s));
  session_commit s :=
    match commit_error s with
    | Some e =>
        (Raised e, mk_state (memory s) (stored s) [] [] (fresh_id s) None)
    | None =>
        (Ok tt, mk_state (memory s) (flush s) [] [] (fresh_id s) None)
    end;
  session_delete obj s :=
    match stored s !! obj with
    | None => (Raised (error "InvalidRequestError" "Instance is not persisted"), s)
    | Some _ =>
        (Ok tt,
         mk_state (memory s) (stored s) (pending s) (doomed s ++ [obj])
           (fresh_id s) (commit_error s))
    end
|}.

(** A table of three rows, with nothing pending. *)
Definition three_rows : state :=
  mk_state ∅ {[ 1%nat := 10; 2%nat := 20; 3%nat := 30 ]} [] [] 4 None.

(** The same table, when the database will refuse the next commit. *)
Definition refusing (e : exn) : state :=
  mk_state ∅ {[ 1%nat := 10; 2%nat := 20; 3%nat := 30 ]} [] [] 4 (Some e).

Definition integrity_error : exn :=
  error "IntegrityError" "UNIQUE constraint failed".

Definition interrupt : exn := mk_exn KeyboardInterrupt "" None.

End MemoryOrm.

(** ** The web framework and the forms around the ORM in memory *)

Module MemoryFlask.

Import MemoryOrm.

(** Inside a request that has a session, every message is stored. *)
#[global] Instance in_request : Flask state := {|
  flash_error _ _ _ := None
|}.

(** Outside any request, [flash] raises. *)
Definition outside_request : Flask state := {|
  flash_error _ _ _ :=
    Some (error "RuntimeError" "working outside of request context")
|}.

(** An integrity error whose message is unicode text with a character
    outside ASCII: [str(ex)] raises. *)
Definition unicode_integrity_error : exn :=
  mk_exn (ExceptionSubclass "IntegrityError") "UNIQUE constraint failed"
    (Some (ExceptionSubclass "UnicodeEncodeError",
           "'ascii' codec can't encode character")).

(** A form of several fields: [populate_obj] assigns the fields in turn,
    [Some v] giving the attribute the value [v] and [None] being a field
    that cannot be populated, which raises once the fields before it are
    assigned. *)
Fixpoint populate_fields (fields : list (option Z)) (obj : nat) (s : state)
  : result unit * state :=
  match fields with
  | [] => (Ok tt, s)
  | Some v :: fields' =>
      populate_fields fields' obj
        (mk_state (<[obj := v]> (memory s)) (stored s) (pending s) (doomed s)
           (fresh_id s) (commit_error s))
  | None :: _ => (Raised (error "ValueError" "Not a valid choice"), s)
  end.

(** The same session, given such forms. *)
Definition fieldwise_orm : Orm state nat (list (option Z)) := {|
  new_model := new_model (Orm := memory_orm);
  populate_obj := populate_fields;
  query_count := query_count (Orm := memory_orm);
  query_join := query_join (Orm := memory_orm);
  query_all := query_all (Orm := memory_orm);
  query_get := query_get (Orm := memory_orm);
  session_add := session_add (Orm := memory_orm);
  session_commit := session_commit (Orm := memory_orm);
  session_delete := session_delete (Orm := memory_orm)
|}.

End MemoryFlask.

(** ** Sample models *)

Module Samples.

Definition plain : Column := mk_column true false ∅.
Definition required : Column := mk_column false false ∅.
Definition pk : Column := mk_column false true ∅.
Definition fk : Column := mk_column false false {[ "user.id" ]}.

(** A post with its author: a key, two plain columns, a foreign key and the
    many-to-one relationship over it. *)
Definition Post : Model :=
  mk_model "Post"
    [ ColumnProperty "id" [pk];
      ColumnProperty "title" [required];
      ColumnProperty "body" [plain];
      ColumnProperty "user_id" [fk];
      RelationshipProperty "user" MANYTOONE [(fk, pk)] "User" ].

(** A user with the backref of the posts. *)
Definition User : Model :=
  mk_model "User"
    [ ColumnProperty "id" [pk];
      ColumnProperty "name" [required];
      RelationshipProperty "posts" ONETOMANY [(pk, fk)] "Post" ].

(** A class mapped to the join of two tables of a schema that declares no
    foreign key: [customer_id] is one property over [orders.customer_id], a
    plain column, and [customers.id], the primary key it is joined on. *)
Definition OrderCustomer : Model :=
  mk_model "OrderCustomer"
    [ ColumnProperty "order_id" [pk];
      ColumnProperty "customer_id" [plain; pk];
      ColumnProperty "amount" [plain] ].

Definition view_of (m : Model) : View :=
  mk_view m true 20 {[ "title" := SortString "title";
                       "author" := SortString "user.name" ]}.

End Samples.

(** ** Mapped models *)

(** A column property of a mapped class maps at least one column. *)
Definition maps_a_column (p : MapperProperty) : Prop :=
  match p with
  | ColumnProperty _ [] => False
  | _ => True
  end.

Definition well_mapped (m : Model) : Prop :=
  Forall maps_a_column (iterate_properties m).

(** A column property that maps more than one column. *)
Definition multi_column (p : MapperProperty) : Prop :=
  match p with
  | ColumnProperty _ cols => (1 < List.length cols)%nat
  | _ => False
  end.

(** A property the list view shows: a many-to-one relationship, or a
    column property whose first column is no key. *)
Definition listed (p : MapperProperty) : Prop :=
  match p with
  | RelationshipProperty _ MANYTOONE _ _ => True
  | ColumnProperty _ (column :: _) => is_key_column column = false
  | _ => False
  end.

(** A property the sortable loop enters: a column property of one column
    that is no key. *)
Definition sortable (p : MapperProperty) : Prop :=
  match p with
  | ColumnProperty _ [column] => is_key_column column = false
  | _ => False
  end.

(** A column property, one of whose columns is a primary key or has
    foreign keys. *)
Definition maps_key_column (p : MapperProperty) : Prop :=
  match p with
  | ColumnProperty _ cols => ∃ c, c ∈ cols ∧ is_key_column c = true
  | _ => False
  end.

(** The view of [Samples.Post] whose sortable columns are the scaffolded
    ones, each key sorting by the column of its name. *)
Definition scaffolded_post_view : View :=
  mk_view Samples.Post true 20
    (SortString <$> {[ "title" := "title"; "body" := "body" ]}).

(** [listed], as the test the loop of [scaffold_list_columns] makes. *)
Definition shown_in_list (p : MapperProperty) : bool :=
  match p with
  | RelationshipProperty _ MANYTOONE _ _ => true
  | ColumnProperty _ (column :: _) => negb (is_key_column column)
  | _ => false
  end.

(** The order clause [get_list] asks for. *)
Definition sort_clause (sort_desc : bool) (sort_field : SortField) : OrderClause :=
  if sort_desc then Desc sort_field else Asc sort_field.

(** ** Outcomes of the handlers' steps *)

Section outcomes.

Import ModelView.

Context {W Obj Form : Type} `{!Orm W Obj Form} `{!Flask W}.

(** A computation that flashes nothing, whatever it returns or raises. *)
Definition silent {A : Type} (c : M W A) : Prop :=
  ∀ w, flashes (c w).2 = flashes w.

(** A step of the [try] of [create_model], run from the ORM state [o],
    raises [e] and leaves the ORM in [o']. *)
Inductive create_raises (self : View) (form : Form) (o : W) (e : exn) (o' : W)
  : Prop :=
| constructor_raises :
    new_model (model self) o = (Raised e, o') →
    create_raises self form o e o'
| create_populate_raises obj o1 :
    new_model (model self) o = (Ok obj, o1) →
    populate_obj form obj o1 = (Raised e, o') →
    create_raises self form o e o'
| add_raises obj o1 u o2 :
    new_model (model self) o = (Ok obj, o1) →
    populate_obj form obj o1 = (Ok u, o2) →
    session_add obj o2 = (Raised e, o') →
    create_raises self form o e o'
| create_commit_raises obj o1 u o2 u' o3 :
    new_model (model self) o = (Ok obj, o1) →
    populate_obj form obj o1 = (Ok u, o2) →
    session_add obj o2 = (Ok u', o3) →
    session_commit o3 = (Raised e, o') →
    create_raises self form o e o'.

(** Every step of the [try] of [create_model] returns. *)
Definition create_succeeds (self : View) (form : Form) (o o' : W) : Prop :=
  ∃ obj o1 u o2 u' o3 u'',
    new_model (model self) o = (Ok obj, o1)
    ∧ populate_obj form obj o1 = (Ok u, o2)
    ∧ session_add obj o2 = (Ok u', o3)
    ∧ session_commit o3 = (Ok u'', o').

(** The same for the two steps of the [try] of [update_model]. *)
Inductive update_raises (form : Form) (obj : Obj) (o : W) (e : exn) (o' : W)
  : Prop :=
| update_populate_raises :
    populate_obj form obj o = (Raised e, o') →
    update_raises form obj o e o'
| update_commit_raises u o1 :
    populate_obj form obj o = (Ok u, o1) →
    session_commit o1 = (Raised e, o') →
    update_raises form obj o e o'.

Definition update_succeeds (form : Form) (obj : Obj) (o o' : W) : Prop :=
  ∃ u o1 u',
    populate_obj form obj o = (Ok u, o1)
    ∧ session_commit o1 = (Ok u', o').

(** What the sorting step of [get_list] joins, when it joins: the
    relationship named before the first dot of a dotted string, or the
    entity of an instrumented attribute. *)
Definition sort_join (self : View) (sort_column : option string)
  : option JoinTarget :=
  match sort_column ≫= (_sortable_columns self !!.) with
  | Some (SortString s) =>
      if contains_dot s then JoinName <$> head (split_dot_1 s) else None
  | Some (SortAttribute a) => Some (JoinEntity (parententity a))
  | _ => None
  end.

(** What the sorting step of [get_list] orders by, when it orders. *)
Definition sort_order (self : View) (sort_column : option string)
    (sort_desc : bool) : option OrderClause :=
  match sort_column ≫= (_sortable_columns self !!.) with
  | Some SortOther | None => None
  | Some sort_field => Some (sort_clause sort_desc sort_field)
  end.

Definition sorted_query (self : View) (sort_column : option string)
    (sort_desc : bool) (query : Query) : Query :=
  from_option (λ clause, order_by clause query) query
    (sort_order self sort_column sort_desc).

(** A session call of [get_list], run from the ORM state [o], raises [e]
    and leaves the ORM in [o']: the count, the join of the sorting step, or
    [query.all()] on the sorted and paginated query. *)
Inductive get_list_raises (self : View) (page : option Z)
    (sort_column : option string) (sort_desc execute : bool)
    (o : W) (e : exn) (o' : W) : Prop :=
| count_raises :
    query_count (session_query (model self)) o = (Raised e, o') →
    get_list_raises self page sort_column sort_desc execute o e o'
| join_raises count o1 target :
    query_count (session_query (model self)) o = (Ok count, o1) →
    sort_join self sort_column = Some target →
    query_join target (session_query (model self)) o1 = (Raised e, o') →
    get_list_raises self page sort_column sort_desc execute o e o'
| all_raises count o1 :
    query_count (session_query (model self)) o = (Ok count, o1) →
    sort_join self sort_column = None →
    execute = true →
    query_all
      (get_list_pagination self page
         (sorted_query self sort_column sort_desc (session_query (model self))))
      o1
    = (Raised e, o') →
    get_list_raises self page sort_column sort_desc execute o e o'
| all_raises_joined count o1 target query o2 :
    query_count (session_query (model self)) o = (Ok count, o1) →
    sort_join self sort_column = Some target →
    query_join target (session_query (model self)) o1 = (Ok query, o2) →
    execute = true →
    query_all
      (get_list_pagination self page
         (sorted_query self sort_column sort_desc query)) o2
    = (Raised e, o') →
    get_list_raises self page sort_column sort_desc execute o e o'.

(** A session call of [delete_model] raises [e] and leaves the ORM in
    [o']: [session.delete], or the commit after it. *)
Inductive delete_raises (obj : Obj) (o : W) (e : exn) (o' : W) : Prop :=
| delete_call_raises :
    session_delete obj o = (Raised e, o') →
    delete_raises obj o e o'
| delete_commit_raises u o1 :
    session_delete obj o = (Ok u, o1) →
    session_commit o1 = (Raised e, o') →
    delete_raises obj o e o'.

(** The world after the handler of [create_model] or [update_model] has
    flashed its message. *)
Definition flashed_error (message : string) (o : W)
    (before : list (string * string)) : world W :=
  mk_world o (before ++ [(message, "error")]).

(** What became of the exception [e] that a step raised and left the ORM
    in [o]: it went on to the caller, or it was caught and reported, or the
    handler itself raised, in [str(ex)] or in [flash]. [r] is the outcome
    of the method and [after] what is flashed after it. *)
Definition failure_outcome (prefix : string) (e : exn) (o : W)
    (before : list (string * string)) (r : result bool)
    (after : list (string * string)) : Prop :=
  (is_Exception (exn_cls e) = false ∧ r = Raised e ∧ after = before)
  ∨ (is_Exception (exn_cls e) = true
     ∧ ∃ text, str e = Ok text
               ∧ flash_error (mk_world o before) (prefix ++ text) "error" = None
               ∧ r = Ok false
               ∧ after = (before ++ [((prefix ++ text)%string, "error")])%list)
  ∨ (is_Exception (exn_cls e) = true
     ∧ ∃ e', str e = Raised e' ∧ r = Raised e' ∧ after = before)
  ∨ (is_Exception (exn_cls e) = true
     ∧ ∃ text e', str e = Ok text
                  ∧ flash_error (mk_world o before) (prefix ++ text) "error"
                    = Some e'
                  ∧ r = Raised e' ∧ after = before).

End outcomes.

(** * Scaffolding: theorems *)

Section scaffolding.

Import ModelView.

Implicit Types (ps : list MapperProperty) (p : MapperProperty) (m : Model).

(** The list loop keeps what it was given and adds keys of listed
    properties only. *)
Lemma list_columns_loop_spec ps : ∀ l0 l,
  list_columns_loop ps l0 = Ok l →
  ∀ k, k ∈ l ↔ k ∈ l0 ∨ ∃ p, p ∈ ps ∧ listed p ∧ prop_key p = k.
Proof.
  induction ps as [|p ps IH]; intros l0 l Hl k; simpl in Hl.
  - inversion Hl; subst. split; [auto|]. intros [?|(p & Hp & _)]; [done|].
    by apply elem_of_nil in Hp.
  - assert (Hskip : ¬ listed p → list_columns_loop ps l0 = Ok l →
                    k ∈ l ↔ k ∈ l0 ∨ ∃ p', p' ∈ p :: ps ∧ listed p' ∧ prop_key p' = k).
    { intros Hn H. rewrite (IH _ _ H k). split.
      - intros [?|(p' & ? & ? & ?)]; [auto|]. right. exists p'.
        split; [by apply elem_of_cons; right | done].
      - intros [?|(p' & Hin & Hl' & ?)]; [auto|]. right. exists p'.
        apply elem_of_cons in Hin as [->|?]; [done|auto]. }
    assert (Htake : listed p → list_columns_loop ps (l0 ++ [prop_key p]) = Ok l →
                    k ∈ l ↔ k ∈ l0 ∨ ∃ p', p' ∈ p :: ps ∧ listed p' ∧ prop_key p' = k).
    { intros Hy H. rewrite (IH _ _ H k). rewrite elem_of_app, list_elem_of_singleton.
      split.
      - intros [[?| ->]|(p' & ? & ? & ?)]; [auto| |].
        + right. exists p. split; [by apply elem_of_cons; left | done].
        + right. exists p'. split; [by apply elem_of_cons; right | done].
      - intros [?|(p' & Hin & Hl' & ?)]; [auto|].
        apply elem_of_cons in Hin as [->|?]; [auto|]. right. by exists p'. }
    destruct p as [key dir pairs rm|key cols|key]; simpl in *.
    + destruct dir; [by apply Htake | by apply Hskip; auto..].
    + destruct cols as [|c cols']; [discriminate Hl|]. simpl in Hl.
      destruct (is_key_column c) eqn:Hc.
      * apply Hskip; [simpl; congruence | done].
      * by apply Htake.
    + by apply Hskip; auto.
Qed.

(** The list loop returns when every column property maps a column. *)
Lemma list_columns_loop_returns ps : ∀ l0,
  Forall maps_a_column ps → ∃ l, list_columns_loop ps l0 = Ok l.
Proof.
  induction ps as [|p ps IH]; intros l0 Hwf; simpl; [by eexists|].
  apply Forall_cons in Hwf as [Hp Hps].
  destruct p as [key dir pairs rm|key [|c cols]|key]; simpl in *; try done; auto.
  - destruct dir; auto.
  - destruct (is_key_column c); auto.
Qed.

Lemma sortable_listed p : sortable p → listed p.
Proof. by destruct p as [| ? [|c [|]] |]. Qed.

(** Every entry of the dictionary the sortable loop returns was given to it
    or maps the key of a sortable property to itself. *)
Lemma sortable_columns_loop_spec m ps : ∀ d0 d,
  sortable_columns_loop m ps d0 = Ok d →
  ∀ k x, d !! k = Some x →
    d0 !! k = Some x ∨ (x = k ∧ ∃ p, p ∈ ps ∧ sortable p ∧ prop_key p = k).
Proof.
  induction ps as [|p ps IH]; intros d0 d Hd k x Hk; simpl in Hd.
  - inversion Hd; subst. auto.
  - assert (Hrest : ∀ d1, sortable_columns_loop m ps d1 = Ok d →
              d1 !! k = Some x ∨ (x = k ∧ ∃ p', p' ∈ p :: ps ∧ sortable p' ∧ prop_key p' = k)).
    { intros d1 H. destruct (IH _ _ H k x Hk) as [?|(-> & p' & ? & ? & ?)]; [auto|].
      right. split; [done|]. exists p'. split; [by apply elem_of_cons; right | done]. }
    destruct p as [key dir pairs rm|key cols|key]; simpl in *; [by apply Hrest | | by apply Hrest].
    case_bool_decide; [discriminate Hd|].
    destruct cols as [|c [|c' cols']]; simpl in *; [discriminate Hd | | lia].
    destruct (is_key_column c) eqn:Hc; [by apply Hrest|].
    destruct (Hrest _ Hd) as [Hin|?]; [|auto].
    apply lookup_insert_Some in Hin as [[<- <-]|[_ ?]]; [|auto].
    right. split; [done|]. exists (ColumnProperty key [c]).
    split; [by apply elem_of_cons; left | done].
Qed.

(** When the sortable loop returns, every column property it went through
    maps exactly one column. *)
Lemma sortable_columns_loop_single m ps : ∀ d0 d,
  sortable_columns_loop m ps d0 = Ok d →
  Forall (λ p, maps_a_column p ∧ ¬ multi_column p) ps.
Proof.
  induction ps as [|p ps IH]; intros d0 d Hd; simpl in Hd; [constructor|].
  destruct p as [key dir pairs rm|key cols|key]; simpl in *;
    [constructor; [by split; auto | eauto] | | constructor; [by split; auto | eauto]].
  case_bool_decide; [discriminate Hd|].
  destruct cols as [|c cols']; simpl in *; [discriminate Hd|].
  constructor; [by split | destruct (is_key_column c); eauto].
Qed.

(** The sortable loop raises as soon as it is given a multi-column
    property. *)
Lemma sortable_columns_loop_multi m ps : ∀ d0 p,
  p ∈ ps → multi_column p → ∃ e, sortable_columns_loop m ps d0 = Raised e.
Proof.
  intros d0 p Hin Hmulti.
  destruct (sortable_columns_loop m ps d0) as [d|e] eqn:Hd; [|by eexists].
  apply sortable_columns_loop_single in Hd.
  rewrite Forall_forall in Hd. by destruct (Hd p Hin).
Qed.

(** The sortable loop returns on well-mapped properties of one column. *)
Lemma sortable_columns_loop_returns m ps : ∀ d0,
  Forall (λ p, maps_a_column p ∧ ¬ multi_column p) ps →
  ∃ d, sortable_columns_loop m ps d0 = Ok d.
Proof.
  induction ps as [|p ps IH]; intros d0 Hwf; simpl; [by eexists|].
  apply Forall_cons in Hwf as [[Hp Hn] Hps].
  destruct p as [key dir pairs rm|key cols|key]; simpl in *; auto.
  case_bool_decide; [done|].
  destruct cols as [|c cols']; simpl in *; [done|].
  destruct (is_key_column c); auto.
Qed.

(** Two properties of one key are one property when keys are distinct. *)
Lemma same_key_same_property ps p p' :
  NoDup (prop_key <$> ps) → p ∈ ps → p' ∈ ps → prop_key p = prop_key p' → p = p'.
Proof.
  induction ps as [|q ps IH]; intros Hnd Hp Hp' Hk; [by apply elem_of_nil in Hp|].
  rewrite fmap_cons in Hnd. apply NoDup_cons in Hnd as [Hq Hnd].
  apply elem_of_cons in Hp as [->|Hp]; apply elem_of_cons in Hp' as [->|Hp']; auto.
  - exfalso. apply Hq. rewrite Hk. by apply list_elem_of_fmap_2.
  - exfalso. apply Hq. rewrite <- Hk. by apply list_elem_of_fmap_2.
Qed.

(** On well-mapped properties the sortable loop raises for a multi-column
    property only. *)
Lemma sortable_columns_loop_raised m ps : ∀ d0 e,
  Forall maps_a_column ps →
  sortable_columns_loop m ps d0 = Raised e →
  ∃ p, p ∈ ps ∧ multi_column p.
Proof.
  induction ps as [|p ps IH]; intros d0 e Hwf He; simpl in He; [discriminate He|].
  apply Forall_cons in Hwf as [Hp Hps].
  assert (Hrest : ∀ d1, sortable_columns_loop m ps d1 = Raised e →
            ∃ p', p' ∈ p :: ps ∧ multi_column p').
  { intros d1 H. destruct (IH _ _ Hps H) as (p' & ? & ?).
    exists p'. split; [by apply elem_of_cons; right | done]. }
  destruct p as [key dir pairs rm|key cols|key]; simpl in *; eauto.
  case_bool_decide as Hlen.
  - exists (ColumnProperty key cols). split; [by apply elem_of_cons; left | done].
  - destruct cols as [|c cols']; simpl in *; [done|].
    destruct (is_key_column c); eauto.
Qed.

(** C8: [scaffold_sortable_columns] raises exactly when some column
    property of the (well-mapped) model maps more than one column, and on
    such a model it returns no dictionary. *)
Theorem sortable_raises_iff_multi_column (self : View) :
  well_mapped (model self) →
  ((∃ e, scaffold_sortable_columns self = Raised e) ↔
   (∃ p, p ∈ iterate_properties (model self) ∧ multi_column p))
  ∧ ((∃ p, p ∈ iterate_properties (model self) ∧ multi_column p) →
     ∀ d, scaffold_sortable_columns self ≠ Ok d).
Proof.
  intros Hwf. unfold scaffold_sortable_columns. split; [split|].
  - intros [e He]. by eapply sortable_columns_loop_raised.
  - intros (p & Hin & Hmulti). by eapply sortable_columns_loop_multi.
  - intros (p & Hin & Hmulti) d Hd.
    destruct (sortable_columns_loop_multi (model self) _ ∅ p Hin Hmulti) as [e He].
    congruence.
Qed.

Lemma sortable_raises_iff_multi_column_witness :
  well_mapped Samples.OrderCustomer
  ∧ ∃ e, scaffold_sortable_columns (Samples.view_of Samples.OrderCustomer) = Raised e.
Proof.
  assert (Hwf : well_mapped Samples.OrderCustomer)
    by (repeat constructor).
  split; [exact Hwf|].
  apply (sortable_raises_iff_multi_column (Samples.view_of Samples.OrderCustomer) Hwf).
  exists (ColumnProperty "customer_id" [Samples.plain; Samples.pk]).
  split; [|simpl; lia].
  apply elem_of_cons; right. apply elem_of_cons; by left.
Defined.

(** C9: when [scaffold_sortable_columns] returns, [scaffold_list_columns]
    returns too, and every key of the dictionary is in the list and is
    mapped to itself. *)
Theorem sortable_keys_are_listed (self : View) (d : gmap string string) :
  scaffold_sortable_columns self = Ok d →
  ∃ l, scaffold_list_columns self = Ok l
       ∧ ∀ k x, d !! k = Some x → x = k ∧ k ∈ l.
Proof.
  unfold scaffold_sortable_columns, scaffold_list_columns. intros Hd.
  pose proof (sortable_columns_loop_single _ _ _ _ Hd) as Hsingle.
  destruct (list_columns_loop_returns (iterate_properties (model self)) [])
    as [l Hl].
  { eapply Forall_impl; [exact Hsingle|]. by intros p [? _]. }
  exists l. split; [done|]. intros k x Hk.
  destruct (sortable_columns_loop_spec _ _ _ _ Hd k x Hk)
    as [Hempty|(-> & p & Hin & Hs & Hkey)].
  - by rewrite lookup_empty in Hempty.
  - split; [done|]. apply (list_columns_loop_spec _ _ _ Hl). right.
    exists p. eauto using sortable_listed.
Qed.

Lemma sortable_keys_are_listed_witness :
  ∃ l, scaffold_list_columns (Samples.view_of Samples.Post) = Ok l
       ∧ "title" ∈ l ∧ "body" ∈ l.
Proof.
  destruct (sortable_keys_are_listed (Samples.view_of Samples.Post)
              {[ "title" := "title"; "body" := "body" ]})
    as (l & Hl & Hkeys).
  - vm_compute. reflexivity.
  - exists l. split; [exact Hl|]. split.
    + apply (Hkeys "title" "title"). vm_compute. reflexivity.
    + apply (Hkeys "body" "body"). vm_compute. reflexivity.
Defined.

(** C1 (list columns): [scaffold_list_columns] looks at the first column of
    a property only. On the class mapped to a join, the property
    [customer_id] maps a primary key as its second column and its key is in
    the list; [scaffold_sortable_columns] refuses the same model. *)
Theorem list_columns_show_a_key_column :
  scaffold_list_columns (Samples.view_of Samples.OrderCustomer)
    = Ok ["customer_id"; "amount"]
  ∧ maps_key_column (ColumnProperty "customer_id" [Samples.plain; Samples.pk])
  ∧ ColumnProperty "customer_id" [Samples.plain; Samples.pk]
      ∈ iterate_properties Samples.OrderCustomer
  ∧ ∃ e, scaffold_sortable_columns (Samples.view_of Samples.OrderCustomer)
         = Raised e.
Proof.
  split; [vm_compute; reflexivity|]. split; [|split].
  - exists Samples.pk. split; [|vm_compute; reflexivity].
    apply elem_of_cons; right. apply elem_of_cons; by left.
  - apply elem_of_cons; right. apply elem_of_cons; by left.
  - eexists. vm_compute. reflexivity.
Qed.

(** A column property whose first column is a primary key or has foreign
    keys is never in the list of [scaffold_list_columns], on a model whose
    properties have distinct keys. *)
Theorem first_key_column_not_listed (self : View) key c cols l :
  NoDup (prop_key <$> iterate_properties (model self)) →
  ColumnProperty key (c :: cols) ∈ iterate_properties (model self) →
  is_key_column c = true →
  scaffold_list_columns self = Ok l →
  key ∉ l.
Proof.
  unfold scaffold_list_columns. intros Hnd Hin Hc Hl Hk.
  apply (list_columns_loop_spec _ _ _ Hl) in Hk as [Hk|(p & Hp & Hlisted & Hkey)].
  - by apply elem_of_nil in Hk.
  - assert (p = ColumnProperty key (c :: cols)) as ->
      by (by eapply same_key_same_property).
    simpl in Hlisted. congruence.
Qed.

Lemma first_key_column_not_listed_witness :
  scaffold_list_columns (Samples.view_of Samples.Post)
    = Ok ["title"; "body"; "user"]
  ∧ "user_id" ∉ ["title"; "body"; "user"].
Proof.
  split; [vm_compute; reflexivity|].
  apply (first_key_column_not_listed (Samples.view_of Samples.Post)
           "user_id" Samples.fk []).
  - apply (bool_decide_unpack _). vm_compute. reflexivity.
  - do 3 (apply elem_of_cons; right). apply elem_of_cons; by left.
  - vm_compute. reflexivity.
  - vm_compute. reflexivity.
Defined.

(** A column property, any of whose columns is a primary key or has
    foreign keys, is never a key of the dictionary of
    [scaffold_sortable_columns], on a model whose properties have distinct
    keys. *)
Theorem key_column_not_sortable (self : View) p d :
  NoDup (prop_key <$> iterate_properties (model self)) →
  p ∈ iterate_properties (model self) →
  maps_key_column p →
  scaffold_sortable_columns self = Ok d →
  d !! prop_key p = None.
Proof.
  unfold scaffold_sortable_columns. intros Hnd Hin Hkey Hd.
  destruct (d !! prop_key p) as [x|] eqn:Hx; [exfalso|done].
  destruct (sortable_columns_loop_spec _ _ _ _ Hd _ _ Hx)
    as [Hempty|(_ & p' & Hin' & Hs & Hk)].
  - by rewrite lookup_empty in Hempty.
  - assert (p' = p) as -> by (by eapply same_key_same_property).
    destruct p as [|key [|c [|]]|]; simpl in *; try done.
    destruct Hkey as (c' & Hc' & Hkc).
    apply list_elem_of_singleton in Hc' as ->. congruence.
Qed.

Lemma key_column_not_sortable_witness :
  scaffold_sortable_columns (Samples.view_of Samples.Post)
    = Ok {[ "title" := "title"; "body" := "body" ]}
  ∧ ({[ "title" := "title"; "body" := "body" ]} : gmap string string) !! "user_id"
    = None.
Proof.
  split; [vm_compute; reflexivity|].
  apply (key_column_not_sortable (Samples.view_of Samples.Post)
           (ColumnProperty "user_id" [Samples.fk])).
  - apply (bool_decide_unpack _). vm_compute. reflexivity.
  - do 3 (apply elem_of_cons; right). apply elem_of_cons; by left.
  - exists Samples.fk. split; [apply elem_of_cons; by left|].
    vm_compute. reflexivity.
  - vm_compute. reflexivity.
Defined.

End scaffolding.

(** * Form conversion: theorems *)

Section conversion.

Import AdminModelConverter.

Context {BaseField : Type}.
Variable super_convert :
  MapperProperty → option (gmap string value) → result (option BaseField).

Lemma default_kwargs_allow_blank local_column :
  default_kwargs local_column !! "allow_blank"
  = Some (VBool (nullable local_column)).
Proof. unfold default_kwargs. by simplify_map_eq. Qed.

Lemma default_kwargs_query_factory local_column :
  default_kwargs local_column !! "query_factory" = None.
Proof. unfold default_kwargs. by simplify_map_eq. Qed.

(** The value of [allow_blank] after [field_args] is merged in: the one of
    [field_args] when it has one, else the nullability of the column. *)
Lemma update_kwargs_allow_blank local_column field_args :
  update_kwargs (default_kwargs local_column) field_args !! "allow_blank"
  = Some (default (VBool (nullable local_column))
            (field_args ≫= (.!! "allow_blank"))).
Proof.
  unfold update_kwargs. destruct field_args as [args|]; simpl;
    [|apply default_kwargs_allow_blank].
  case_bool_decide as Hne.
  - rewrite lookup_union, default_kwargs_allow_blank.
    by destruct (args !! "allow_blank").
  - subst args. by rewrite lookup_empty, default_kwargs_allow_blank.
Qed.

(** Merging leaves a key absent when neither side has it. *)
Lemma update_kwargs_query_factory local_column field_args :
  field_args ≫= (.!! "query_factory") = None →
  update_kwargs (default_kwargs local_column) field_args !! "query_factory" = None.
Proof.
  unfold update_kwargs. destruct field_args as [args|]; simpl;
    intros Hargs; [|apply default_kwargs_query_factory].
  case_bool_decide; [|apply default_kwargs_query_factory].
  by rewrite lookup_union, Hargs, default_kwargs_query_factory.
Qed.

(** C2: a one-to-many relationship whose first local column has no foreign
    keys gives no field when the view hides backrefs. *)
Theorem convert_hides_backref (view : View) key local_column remote_column
    pairs remote_model field_args :
  foreign_keys local_column = ∅ →
  hide_backrefs view = true →
  convert super_convert view
    (RelationshipProperty key ONETOMANY
       ((local_column, remote_column) :: pairs) remote_model)
    field_args
  = Ok None.
Proof.
  intros Hfk Hhide. simpl. unfold truthy_set. rewrite Hfk, Hhide.
  by rewrite bool_decide_false by (by intros ?).
Qed.

(** C3, amended: a many-to-one relationship gives a [QuerySelectField] and
    a one-to-many relationship that is not suppressed a
    [QuerySelectMultipleField], both over the remote model; [allow_blank]
    is the entry of [field_args] when it has one, and the nullability of
    the first local column otherwise. [field_args] has no [query_factory]
    entry here. *)
Theorem convert_relationship (view : View) key direction local_column
    remote_column pairs remote_model field_args :
  field_args ≫= (.!! "query_factory") = None →
  ∃ kwargs,
    kwargs !! "allow_blank"
      = Some (default (VBool (nullable local_column))
                (field_args ≫= (.!! "allow_blank")))
    ∧ (direction = MANYTOONE →
       convert super_convert view
         (RelationshipProperty key direction
            ((local_column, remote_column) :: pairs) remote_model) field_args
       = Ok (Some (QuerySelectField remote_model kwargs)))
    ∧ (direction = ONETOMANY →
       foreign_keys local_column ≠ ∅ ∨ hide_backrefs view = false →
       convert super_convert view
         (RelationshipProperty key direction
            ((local_column, remote_column) :: pairs) remote_model) field_args
       = Ok (Some (QuerySelectMultipleField remote_model kwargs))).
Proof.
  intros Hqf.
  exists (update_kwargs (default_kwargs local_column) field_args).
  split; [apply update_kwargs_allow_blank|].
  pose proof (update_kwargs_query_factory local_column field_args Hqf) as Hnone.
  split.
  - intros ->. simpl. unfold call_with_query_factory. by rewrite Hnone.
  - intros -> Hshown. simpl. unfold call_with_query_factory. rewrite Hnone.
    destruct Hshown as [Hfk| ->].
    + unfold truthy_set. by rewrite bool_decide_true.
    + by rewrite andb_false_r.
Qed.

End conversion.

Lemma convert_hides_backref_witness :
  AdminModelConverter.convert (BaseField := unit) (λ _ _, Ok None)
    (Samples.view_of Samples.User)
    (RelationshipProperty "posts" ONETOMANY [(Samples.pk, Samples.fk)] "Post")
    None
  = Ok None.
Proof.
  apply (convert_hides_backref (BaseField := unit) (λ _ _, Ok None)
           (Samples.view_of Samples.User) "posts" Samples.pk Samples.fk [] "Post" None).
  - reflexivity.
  - reflexivity.
Defined.

(** C3 as stated fails: with [allow_blank] given in [field_args], the field
    of a many-to-one relationship over a column that is not nullable allows
    a blank all the same. *)
Lemma convert_allow_blank_overridden :
  ¬ ∃ kwargs,
      AdminModelConverter.convert (BaseField := unit) (λ _ _, Ok None)
        (Samples.view_of Samples.Post)
        (RelationshipProperty "user" MANYTOONE [(Samples.fk, Samples.pk)] "User")
        (Some {[ "allow_blank" := VBool true ]})
      = Ok (Some (AdminModelConverter.QuerySelectField "User" kwargs))
      ∧ kwargs !! "allow_blank" = Some (VBool (nullable Samples.fk)).
Proof.
  intros (kwargs & Hconv & Hblank).
  vm_compute in Hconv. injection Hconv as <-.
  vm_compute in Hblank. discriminate Hblank.
Qed.

Lemma convert_relationship_witness :
  ∃ kwargs,
    kwargs !! "allow_blank" = Some (VBool true)
    ∧ AdminModelConverter.convert (BaseField := unit) (λ _ _, Ok None)
        (Samples.view_of Samples.Post)
        (RelationshipProperty "user" MANYTOONE [(Samples.fk, Samples.pk)] "User")
        (Some {[ "allow_blank" := VBool true ]})
      = Ok (Some (AdminModelConverter.QuerySelectField "User" kwargs)).
Proof.
  destruct (convert_relationship (BaseField := unit) (λ _ _, Ok None)
              (Samples.view_of Samples.Post) "user" MANYTOONE Samples.fk Samples.pk
              [] "User" (Some {[ "allow_blank" := VBool true ]}))
    as (kwargs & Hblank & Hone & _).
  - reflexivity.
  - exists kwargs. split; [exact Hblank | by apply Hone].
Defined.

(** * Handlers: theorems *)

Section handlers_theorems.

Import ModelView.

Context {W Obj Form : Type} `{!Orm W Obj Form}.

Implicit Types (self : View) (w : world W) (o : W) (e : exn).

(** How the monad runs. *)
Lemma bind_run {A B} (c : M W A) (k : A → M W B) w :
  (c ≫= k) w =
  match c w with
  | (Ok a, w') => k a w'
  | (Raised e, w') => (Raised e, w')
  end.
Proof. reflexivity. Qed.

Lemma orm_call_run {A} (f : W → result A * W) w :
  orm_call f w = ((f (orm w)).1, mk_world (f (orm w)).2 (flashes w)).
Proof. unfold orm_call. by destruct (f (orm w)). Qed.

Lemma silent_mret {A} (a : A) : silent (mret a : M W A).
Proof. by intros w. Qed.

Lemma silent_lift_result {A} (r : result A) : silent (lift_result r : M W A).
Proof. by intros w. Qed.

Lemma silent_orm_call {A} (f : W → result A * W) : silent (orm_call f).
Proof. intros w. by rewrite orm_call_run. Qed.

Lemma silent_bind {A B} (c : M W A) (k : A → M W B) :
  silent c → (∀ a, silent (k a)) → silent (c ≫= k).
Proof.
  intros Hc Hk w. rewrite bind_run. specialize (Hc w).
  destruct (c w) as [[a|e] w1]; simpl in *; [|done].
  by rewrite Hk.
Qed.

Create HintDb silent.
#[local] Hint Resolve silent_mret silent_lift_result silent_orm_call : silent.

Ltac silence :=
  repeat first
    [ apply silent_bind; [|intros ?]
    | progress auto with silent
    | match goal with
      | |- silent (match ?x with _ => _ end) => destruct x
      | |- silent (if ?b then _ else _) => destruct b
      | |- silent (let '(_, _) := ?x in _) => destruct x
      end ].

Lemma get_list_sorting_silent self sort_column sort_desc query :
  silent (get_list_sorting self sort_column sort_desc query).
Proof. unfold get_list_sorting. silence. Qed.

Lemma get_list_silent self page sort_column sort_desc execute :
  silent (get_list self page sort_column sort_desc execute).
Proof.
  unfold get_list. silence. apply get_list_sorting_silent.
Qed.

Lemma get_one_silent self id : silent (get_one self id).
Proof. unfold get_one. silence. Qed.

Lemma delete_model_silent self obj : silent (delete_model self obj).
Proof. unfold delete_model. silence. Qed.

(** The [try] of [create_model] raises what its failing step raises, and
    returns [True] when every step returns. *)
Lemma create_model_try_raises self form w e o' :
  create_raises self form (orm w) e o' →
  create_model_try self form w = (Raised e, mk_world o' (flashes w)).
Proof.
  unfold create_model_try.
  intros [H1|obj o1 H1 H2|obj o1 u o2 H1 H2 H3|obj o1 u o2 u' o3 H1 H2 H3 H4];
    rewrite bind_run, orm_call_run, H1; simpl; [done|..];
    rewrite bind_run, orm_call_run; simpl; rewrite H2; simpl; [done|..];
    rewrite bind_run, orm_call_run; simpl; rewrite H3; simpl; [done|];
    rewrite bind_run, orm_call_run; simpl; by rewrite H4.
Qed.

Lemma create_model_try_succeeds self form w o' :
  create_succeeds self form (orm w) o' →
  create_model_try self form w = (Ok true, mk_world o' (flashes w)).
Proof.
  unfold create_model_try.
  intros (obj & o1 & u & o2 & u' & o3 & u'' & H1 & H2 & H3 & H4).
  rewrite bind_run, orm_call_run, H1; simpl.
  rewrite bind_run, orm_call_run; simpl; rewrite H2; simpl.
  rewrite bind_run, orm_call_run; simpl; rewrite H3; simpl.
  rewrite bind_run, orm_call_run; simpl; by rewrite H4.
Qed.

(** Conversely, an outcome of the [try] is one of the two. *)
Lemma create_model_try_inv self form w r w' :
  create_model_try self form w = (r, w') →
  flashes w' = flashes w
  ∧ ((∃ e, r = Raised e ∧ create_raises self form (orm w) e (orm w'))
     ∨ (r = Ok true ∧ create_succeeds self form (orm w) (orm w'))).
Proof.
  unfold create_model_try. rewrite bind_run, orm_call_run.
  destruct (new_model (model self) (orm w)) as [[obj|e] o1] eqn:H1; simpl.
  2: { intros [= <- <-]. split; [done|]. left. eexists. split; [done|].
       by apply constructor_raises. }
  rewrite bind_run, orm_call_run; simpl.
  destruct (populate_obj form obj o1) as [[u|e] o2] eqn:H2; simpl.
  2: { intros [= <- <-]. split; [done|]. left. eexists. split; [done|].
       by eapply create_populate_raises. }
  rewrite bind_run, orm_call_run; simpl.
  destruct (session_add obj o2) as [[u'|e] o3] eqn:H3; simpl.
  2: { intros [= <- <-]. split; [done|]. left. eexists. split; [done|].
       by eapply add_raises. }
  rewrite bind_run, orm_call_run; simpl.
  destruct (session_commit o3) as [[u''|e] o4] eqn:H4; simpl.
  2: { intros [= <- <-]. split; [done|]. left. eexists. split; [done|].
       by eapply create_commit_raises. }
  intros [= <- <-]. split; [done|]. right. split; [done|].
  by exists obj, o1, u, o2, u', o3, u''.
Qed.

Lemma update_model_try_raises form obj w e o' :
  update_raises form obj (orm w) e o' →
  update_model_try form obj w = (Raised e, mk_world o' (flashes w)).
Proof.
  unfold update_model_try.
  intros [H1|u o1 H1 H2]; rewrite bind_run, orm_call_run, H1; simpl; [done|].
  rewrite bind_run, orm_call_run; simpl. by rewrite H2.
Qed.

Lemma update_model_try_succeeds form obj w o' :
  update_succeeds form obj (orm w) o' →
  update_model_try form obj w = (Ok true, mk_world o' (flashes w)).
Proof.
  unfold update_model_try. intros (u & o1 & u' & H1 & H2).
  rewrite bind_run, orm_call_run, H1; simpl.
  rewrite bind_run, orm_call_run; simpl. by rewrite H2.
Qed.

Lemma update_model_try_inv form obj w r w' :
  update_model_try form obj w = (r, w') →
  flashes w' = flashes w
  ∧ ((∃ e, r = Raised e ∧ update_raises form obj (orm w) e (orm w'))
     ∨ (r = Ok true ∧ update_succeeds form obj (orm w) (orm w'))).
Proof.
  unfold update_model_try. rewrite bind_run, orm_call_run.
  destruct (populate_obj form obj (orm w)) as [[u|e] o1] eqn:H1; simpl.
  2: { intros [= <- <-]. split; [done|]. left. eexists. split; [done|].
       by apply update_populate_raises. }
  rewrite bind_run, orm_call_run; simpl.
  destruct (session_commit o1) as [[u'|e] o2] eqn:H2; simpl.
  2: { intros [= <- <-]. split; [done|]. left. eexists. split; [done|].
       by eapply update_commit_raises. }
  intros [= <- <-]. split; [done|]. right. split; [done|].
  by exists u, o1, u'.
Qed.

(** What [try ... except Exception] makes of the outcome of its body. *)
Lemma try_except_caught {A} (body : M W A) handler w e w' :
  body w = (Raised e, w') → is_Exception (exn_cls e) = true →
  try_except body handler w = handler e w'.
Proof. unfold try_except. by intros -> ->. Qed.

Lemma try_except_escapes {A} (body : M W A) handler w e w' :
  body w = (Raised e, w') → is_Exception (exn_cls e) = false →
  try_except body handler w = (Raised e, w').
Proof. unfold try_except. by intros -> ->. Qed.

Lemma try_except_returns {A} (body : M W A) handler w a w' :
  body w = (Ok a, w') → try_except body handler w = (Ok a, w').
Proof. unfold try_except. by intros ->. Qed.

(** C5: [delete_model] handles no error. What [session.delete] raises, and
    what [session.commit] raises after it, reaches the caller with nothing
    flashed; when both return, [delete_model] returns [None]. *)
Theorem delete_model_propagates self obj w :
  (∀ e o, session_delete obj (orm w) = (Raised e, o) →
     delete_model self obj w = (Raised e, mk_world o (flashes w)))
  ∧ (∀ u o e o', session_delete obj (orm w) = (Ok u, o) →
     session_commit o = (Raised e, o') →
     delete_model self obj w = (Raised e, mk_world o' (flashes w)))
  ∧ (∀ u o u' o', session_delete obj (orm w) = (Ok u, o) →
     session_commit o = (Ok u', o') →
     delete_model self obj w = (Ok tt, mk_world o' (flashes w))).
Proof.
  unfold delete_model. repeat split.
  - intros e o H1. by rewrite bind_run, orm_call_run, H1.
  - intros u o e o' H1 H2. rewrite bind_run, orm_call_run, H1; simpl.
    rewrite orm_call_run; simpl. by rewrite H2.
  - intros u o [] o' H1 H2. rewrite bind_run, orm_call_run, H1; simpl.
    rewrite orm_call_run; simpl. by rewrite H2.
Qed.

(** A failing step of [create_model] or [update_model] leaves the
    persistent state as it was, with a transactional ORM. *)
Lemma create_raises_persistent {D} (persistent : W → D)
    `{!Transactional persistent} self form o e o' :
  create_raises self form o e o' → persistent o' = persistent o.
Proof.
  pose proof (new_model_persistent (persistent := persistent)) as Hnew.
  pose proof (populate_obj_persistent (persistent := persistent)) as Hpop.
  pose proof (session_add_persistent (persistent := persistent)) as Hadd.
  pose proof (session_commit_rolled_back (persistent := persistent)) as Hcommit.
  intros [H1|obj o1 H1 H2|obj o1 u o2 H1 H2 H3|obj o1 u o2 u' o3 H1 H2 H3 H4].
  - by rewrite (Hnew _ _ _ _ H1).
  - by rewrite (Hpop _ _ _ _ _ H2), (Hnew _ _ _ _ H1).
  - by rewrite (Hadd _ _ _ _ H3), (Hpop _ _ _ _ _ H2), (Hnew _ _ _ _ H1).
  - by rewrite (Hcommit _ _ _ H4), (Hadd _ _ _ _ H3), (Hpop _ _ _ _ _ H2),
      (Hnew _ _ _ _ H1).
Qed.

Lemma update_raises_persistent {D} (persistent : W → D)
    `{!Transactional persistent} form obj o e o' :
  update_raises form obj o e o' → persistent o' = persistent o.
Proof.
  pose proof (populate_obj_persistent (persistent := persistent)) as Hpop.
  pose proof (session_commit_rolled_back (persistent := persistent)) as Hcommit.
  intros [H1|u o1 H1 H2].
  - by rewrite (Hpop _ _ _ _ _ H1).
  - by rewrite (Hcommit _ _ _ H2), (Hpop _ _ _ _ _ H1).
Qed.

(** Whatever the sorting step does, the pagination step sets the limit. *)
Lemma get_list_pagination_limit self page query :
  q_limit (get_list_pagination self page query) = Some (page_size self).
Proof. reflexivity. Qed.

(** C10: the count [get_list] returns is the number of rows of the model,
    counted on the query with no clause, whatever the page and the sorting
    asked for; the query returned has the limit [page_size], and the rows
    returned are at most [page_size]. *)
Theorem get_list_count_and_limit (table_rows : W → Model → list Obj)
    `{!Counting table_rows} self page sort_column sort_desc execute w c r w' :
  get_list self page sort_column sort_desc execute w = (Ok (c, r), w') →
  c = Z.of_nat (List.length (table_rows (orm w) (model self)))
  ∧ (∀ page2 sort_column2 sort_desc2 execute2 c2 r2 w2,
       get_list self page2 sort_column2 sort_desc2 execute2 w = (Ok (c2, r2), w2) →
       c2 = c)
  ∧ match r with
    | inl query => q_limit query = Some (page_size self)
    | inr rows => Z.of_nat (List.length rows) ≤ page_size self
    end.
Proof.
  assert (Hcount : ∀ page sort_column sort_desc execute c r w',
    get_list self page sort_column sort_desc execute w = (Ok (c, r), w') →
    c = Z.of_nat (List.length (table_rows (orm w) (model self)))).
  { clear page sort_column sort_desc execute c r w'.
    intros page sort_column sort_desc execute c r w'.
    unfold get_list. rewrite bind_run, orm_call_run.
    destruct (query_count (session_query (model self)) (orm w))
      as [[n|e] o1] eqn:Hn; simpl; [|done].
    apply (count_all_rows (table_rows := table_rows)) in Hn as ->.
    rewrite bind_run.
    destruct (get_list_sorting _ _ _ _ _) as [[q|e] w1]; [|done].
    destruct execute; [|by intros [= <- _ _]].
    rewrite bind_run, orm_call_run.
    destruct (query_all _ _) as [[rows|e] o2]; simpl; [|done].
    by intros [= <- _ _]. }
  intros Hrun. split; [by eapply Hcount|]. split.
  - intros page2 sort_column2 sort_desc2 execute2 c2 r2 w2 Hrun2.
    apply Hcount in Hrun, Hrun2. congruence.
  - revert Hrun. unfold get_list. rewrite bind_run, orm_call_run.
    destruct (query_count (session_query (model self)) (orm w))
      as [[n|e] o1]; simpl; [|done].
    rewrite bind_run.
    destruct (get_list_sorting _ _ _ _ _) as [[q|e] w1]; [|done].
    destruct execute.
    + rewrite bind_run, orm_call_run.
      destruct (query_all _ _) as [[rows|e] o2] eqn:Hall; simpl; [|done].
      intros [= _ <- _].
      eapply (all_within_limit (table_rows := table_rows));
        [apply get_list_pagination_limit | exact Hall].
    + by intros [= _ <- _].
Qed.

End handlers_theorems.

(** * The handlers over the ORM in memory *)

Section memory.

Import ModelView MemoryOrm MemoryFlask.

(** The ORM in memory is transactional over its committed rows. *)
Lemma memory_transactional : Transactional (W := state) stored.
Proof.
  split; simpl.
  - by intros m o r o' [= _ <-].
  - intros form obj o r o'. case_bool_decide; by intros [= _ <-].
  - by intros obj o r o' [= _ <-].
  - intros o e o'. destruct (commit_error o); [by intros [= _ <-]|done].
Qed.

(** Its rows are counted by the query with no clause, and a limit bounds
    what a query gives. *)
Lemma memory_counting : Counting (W := state) (λ s _, rows s).
Proof.
  split; simpl.
  - intros m o c o'. unfold run_query. simpl. by intros [= <- _].
  - intros q n o rs o' Hlimit. unfold run_query. rewrite Hlimit.
    case_bool_decide as Hneg; intros [= <- _].
    rewrite length_take. lia.
Qed.

(** The commit of a created post that the database refuses. *)
Lemma refused_create_raises e :
  create_raises (Samples.view_of Samples.Post) 5 (refusing e) e
    (mk_state {[ 4%nat := 5 ]} (stored three_rows) [] [] 5 None).
Proof.
  eapply (create_commit_raises _ _ _ _ _ 4%nat
            (mk_state {[ 4%nat := 0 ]} (stored three_rows) [] [] 5 (Some e)) tt
            (mk_state {[ 4%nat := 5 ]} (stored three_rows) [] [] 5 (Some e)) tt
            (mk_state {[ 4%nat := 5 ]} (stored three_rows) [4%nat] [] 5 (Some e)));
    reflexivity.
Qed.

(** C4 as stated fails: a commit interrupted from the keyboard raises
    during [create_model], and the interrupt is no instance of [Exception]:
    it is not caught, nothing is flashed, and [create_model] returns no
    [False]. *)
Lemma create_model_lets_interrupt_through :
  create_raises (Samples.view_of Samples.Post) 5 (refusing interrupt) interrupt
    (mk_state {[ 4%nat := 5 ]} (stored three_rows) [] [] 5 None)
  ∧ (create_model (Samples.view_of Samples.Post) 5
       (mk_world (refusing interrupt) [])).1
    = Raised interrupt
  ∧ flashes (create_model (Samples.view_of Samples.Post) 5
               (mk_world (refusing interrupt) [])).2
    = []
  ∧ ¬ ∃ w', create_model (Samples.view_of Samples.Post) 5
              (mk_world (refusing interrupt) [])
            = (Ok false, w').
Proof.
  split; [apply refused_create_raises|].
  split; [vm_compute; reflexivity|]. split; [vm_compute; reflexivity|].
  intros [w' Hrun]. apply (f_equal fst) in Hrun. vm_compute in Hrun.
  discriminate Hrun.
Qed.

(** C6 as stated fails: [delete_model] is wrapped in no [try]. Deleting an
    instance that is not persisted fails in [session.delete]; the exception
    reaches the caller of [delete_model], and no message is flashed. *)
Lemma delete_model_is_not_wrapped :
  session_delete 9%nat three_rows
  = (Raised (error "InvalidRequestError" "Instance is not persisted"), three_rows)
  ∧ (delete_model (Samples.view_of Samples.Post) 9%nat (mk_world three_rows [])).1
    = Raised (error "InvalidRequestError" "Instance is not persisted")
  ∧ flashes (delete_model (Samples.view_of Samples.Post) 9%nat
               (mk_world three_rows [])).2
    = [].
Proof. repeat split; vm_compute; reflexivity. Qed.

Lemma delete_model_propagates_witness :
  delete_model (Samples.view_of Samples.Post) 9%nat (mk_world three_rows [])
  = (Raised (error "InvalidRequestError" "Instance is not persisted"),
     mk_world three_rows []).
Proof.
  destruct (delete_model_propagates (Samples.view_of Samples.Post) 9%nat
              (mk_world three_rows [])) as (Hraise & _).
  apply Hraise. reflexivity.
Defined.

Lemma get_list_count_and_limit_witness :
  get_list (Samples.view_of Samples.Post) (Some 0) (Some "title") true true
    (mk_world three_rows [])
  = (Ok (3, inr [2%nat; 3%nat; 1%nat]), mk_world three_rows [])
  ∧ 3 = Z.of_nat (List.length (rows three_rows))
  ∧ Z.of_nat (List.length [2%nat; 3%nat; 1%nat]) ≤ 20.
Proof.
  assert (Hrun :
    get_list (Samples.view_of Samples.Post) (Some 0) (Some "title") true true
      (mk_world three_rows [])
    = (Ok (3, inr [2%nat; 3%nat; 1%nat]), mk_world three_rows []))
    by (vm_compute; reflexivity).
  split; [exact Hrun|].
  destruct (@get_list_count_and_limit _ _ _ memory_orm (λ s _, rows s)
              memory_counting
              (Samples.view_of Samples.Post) _ _ _ _ _ _ _ _ Hrun)
    as (Hcount & _ & Hlimit).
  split; [exact Hcount | exact Hlimit].
Defined.

End memory.

(** * Form conversion: what else [convert] does *)

Section conversion_cases.

Import AdminModelConverter.

Context {BaseField : Type}.
Variable super_convert :
  MapperProperty → option (gmap string value) → result (option BaseField).

(** After the merge, a key holds the entry of [field_args] when there is
    one, and what [kwargs] held otherwise. *)
Lemma update_kwargs_lookup (kwargs : gmap string value) field_args k :
  update_kwargs kwargs field_args !! k
  = from_option Some (kwargs !! k) (field_args ≫= (.!! k)).
Proof.
  unfold update_kwargs. destruct field_args as [args|]; simpl; [|done].
  case_bool_decide as Hne.
  - rewrite lookup_union. by destruct (args !! k), (kwargs !! k).
  - subst args. by rewrite lookup_empty.
Qed.

(** A relationship with a local column gives no field exactly when it is
    many-to-many, or one-to-many over a column with no foreign key in a
    view that hides backrefs; [field_args] has no say in it. *)
Theorem convert_relationship_none_iff (view : View) key direction local_column
    remote_column pairs remote_model field_args :
  convert super_convert view
    (RelationshipProperty key direction
       ((local_column, remote_column) :: pairs) remote_model) field_args
  = Ok None
  ↔ direction = MANYTOMANY
    ∨ (direction = ONETOMANY ∧ foreign_keys local_column = ∅
       ∧ hide_backrefs view = true).
Proof.
  simpl. unfold call_with_query_factory, truthy_set.
  destruct direction.
  - destruct (_ !! "query_factory"); split; try done;
      intros [?|[? _]]; done.
  - case_bool_decide as Hfk; simpl.
    + destruct (_ !! "query_factory"); split; try done;
        intros [?|(_ & ? & _)]; done.
    + destruct (hide_backrefs view); simpl.
      * split; auto.
      * destruct (_ !! "query_factory"); split; try done;
          intros [?|(_ & _ & ?)]; done.
  - split; auto.
Qed.

(** A relationship raises in two cases only: with no local column at all
    ([IndexError]), and when a field is built while [field_args] holds a
    [query_factory] of its own, the keyword then being given twice
    ([TypeError]). *)
Theorem convert_relationship_raises_iff (view : View) key direction
    local_remote_pairs remote_model field_args e :
  convert super_convert view
    (RelationshipProperty key direction local_remote_pairs remote_model)
    field_args
  = Raised e
  ↔ (local_remote_pairs = [] ∧ e = index_out_of_range)
    ∨ (∃ local_column remote_column pairs,
         local_remote_pairs = (local_column, remote_column) :: pairs
         ∧ e = duplicate_keyword
         ∧ is_Some (field_args ≫= (.!! "query_factory"))
         ∧ (direction = MANYTOONE
            ∨ (direction = ONETOMANY
               ∧ (foreign_keys local_column ≠ ∅ ∨ hide_backrefs view = false)))).
Proof.
  destruct local_remote_pairs as [|[local_column remote_column] pairs]; simpl.
  { split.
    - intros [= <-]. by left.
    - intros [[_ ->]|(? & ? & ? & ? & _)]; done. }
  unfold call_with_query_factory, truthy_set.
  rewrite update_kwargs_lookup, default_kwargs_query_factory.
  split.
  - intros Hraise. right. exists local_column, remote_column, pairs.
    split; [done|].
    destruct direction; simpl in Hraise.
    + destruct (field_args ≫= (.!! "query_factory")) as [v|] eqn:Hqf;
        simpl in Hraise; [|done].
      injection Hraise as <-. eauto 6.
    + case_bool_decide as Hfk; simpl in Hraise.
      * destruct (field_args ≫= (.!! "query_factory")) as [v|] eqn:Hqf;
          simpl in Hraise; [|done].
        injection Hraise as <-. eauto 8.
      * destruct (hide_backrefs view) eqn:Hhide; simpl in Hraise; [done|].
        destruct (field_args ≫= (.!! "query_factory")) as [v|] eqn:Hqf;
          simpl in Hraise; [|done].
        injection Hraise as <-. eauto 8.
    + done.
  - intros [[? _]|(l & r & ps & [= <- <- <-] & -> & [v Hqf] & Hbuilt)]; [done|].
    rewrite Hqf. simpl.
    destruct Hbuilt as [->|(-> & [Hfk|Hhide])]; [done| |].
    + by rewrite bool_decide_true.
    + rewrite Hhide. by rewrite andb_false_r.
Qed.

(** A field built for a relationship is a select over the remote model,
    single for many-to-one and multiple for one-to-many; each of its keyword
    arguments is the entry of [field_args] when there is one and the default
    otherwise, and it has no [query_factory] among them. *)
Theorem convert_relationship_field (view : View) key direction local_column
    remote_column pairs remote_model field_args f :
  convert super_convert view
    (RelationshipProperty key direction
       ((local_column, remote_column) :: pairs) remote_model) field_args
  = Ok (Some f) →
  ∃ kwargs,
    ((f = QuerySelectField remote_model kwargs ∧ direction = MANYTOONE)
     ∨ (f = QuerySelectMultipleField remote_model kwargs ∧ direction = ONETOMANY))
    ∧ (∀ k, kwargs !! k
            = from_option Some (default_kwargs local_column !! k)
                (field_args ≫= (.!! k)))
    ∧ kwargs !! "query_factory" = None.
Proof.
  simpl. unfold call_with_query_factory. intros Hconv.
  exists (update_kwargs (default_kwargs local_column) field_args).
  split; [|split; [intros k; apply update_kwargs_lookup|]].
  - destruct direction; [| |done].
    + destruct (_ !! "query_factory"); [done|]. injection Hconv as <-. auto.
    + destruct (_ && _); [done|].
      destruct (_ !! "query_factory"); [done|]. injection Hconv as <-. auto.
  - destruct direction; [| |done].
    + by destruct (_ !! "query_factory").
    + destruct (_ && _); [done|]. by destruct (_ !! "query_factory").
Qed.

(** A column property whose first column is a primary key or has foreign
    keys gives no field, and the inherited converter is not asked; for any
    other column property the field, and the exception, are those of the
    inherited converter. *)
Theorem convert_column_property (view : View) key column columns field_args :
  let prop := ColumnProperty key (column :: columns) in
  (is_key_column column = true →
   convert super_convert view prop field_args = Ok None)
  ∧ (∀ f, convert super_convert view prop field_args = Ok (Some f) →
       is_key_column column = false
       ∧ ∃ b, super_convert prop field_args = Ok (Some b) ∧ f = Inherited b)
  ∧ (∀ e, convert super_convert view prop field_args = Raised e →
       is_key_column column = false ∧ super_convert prop field_args = Raised e).
Proof.
  simpl. destruct (is_key_column column); [by repeat split|].
  split; [done|].
  destruct (super_convert _ _) as [[b|]|e']; simpl;
    (split; [intros f Hf|intros e He]); try done.
  - injection Hf as <-. eauto.
  - by injection He as <-.
Qed.

End conversion_cases.

Lemma convert_relationship_field_witness :
  ∃ f kwargs,
    AdminModelConverter.convert (BaseField := unit) (λ _ _, Ok None)
      (Samples.view_of Samples.Post)
      (RelationshipProperty "user" MANYTOONE [(Samples.fk, Samples.pk)] "User")
      (Some {[ "default" := VStr "nobody" ]})
    = Ok (Some f)
    ∧ ((f = AdminModelConverter.QuerySelectField "User" kwargs
        ∧ MANYTOONE = MANYTOONE)
       ∨ (f = AdminModelConverter.QuerySelectMultipleField "User" kwargs
          ∧ MANYTOONE = ONETOMANY))
    ∧ kwargs !! "default" = Some (VStr "nobody")
    ∧ kwargs !! "allow_blank" = Some (VBool false).
Proof.
  assert (Hrun :
    AdminModelConverter.convert (BaseField := unit) (λ _ _, Ok None)
      (Samples.view_of Samples.Post)
      (RelationshipProperty "user" MANYTOONE [(Samples.fk, Samples.pk)] "User")
      (Some {[ "default" := VStr "nobody" ]})
    = Ok (Some (AdminModelConverter.QuerySelectField "User"
                  (AdminModelConverter.update_kwargs
                     (AdminModelConverter.default_kwargs Samples.fk)
                     (Some {[ "default" := VStr "nobody" ]})))))
    by (vm_compute; reflexivity).
  destruct (convert_relationship_field (BaseField := unit) (λ _ _, Ok None)
              _ _ _ _ _ _ _ _ _ Hrun)
    as (kwargs & Hcases & Hlookup & _).
  eexists _, kwargs. split; [exact Hrun|]. split; [exact Hcases|].
  split; rewrite Hlookup; vm_compute; reflexivity.
Defined.

(** * Scaffolding: the columns in full *)

Section scaffolding_exact.

Import ModelView.

Implicit Types (ps : list MapperProperty) (p : MapperProperty) (m : Model).

Lemma shown_in_list_listed p : shown_in_list p ↔ listed p.
Proof.
  destruct p as [key [] pairs rm|key [|c cols]|key]; simpl; try done.
  by destruct (is_key_column c).
Qed.

(** What the list loop returns is what it was given, then the keys of the
    properties it shows, in the order of the properties. *)
Lemma list_columns_loop_filter ps : ∀ l0 l,
  list_columns_loop ps l0 = Ok l →
  l = (l0 ++ (prop_key <$> filter shown_in_list ps))%list.
Proof.
  induction ps as [|p ps IH]; intros l0 l Hl; simpl in Hl.
  - injection Hl as <-. by rewrite app_nil_r.
  - destruct p as [key dir pairs rm|key [|c cols]|key]; simpl in Hl.
    + destruct dir; apply IH in Hl as ->.
      * rewrite filter_cons_True by done. by rewrite fmap_cons, <- app_assoc.
      * by rewrite filter_cons_False by (by intros ?).
      * by rewrite filter_cons_False by (by intros ?).
    + done.
    + destruct (is_key_column c) eqn:Hc; apply IH in Hl as ->.
      * rewrite filter_cons_False; [done|]. simpl. rewrite Hc. by intros ?.
      * rewrite filter_cons_True; [|simpl; rewrite Hc; exact I].
        by rewrite fmap_cons, <- app_assoc.
    + apply IH in Hl as ->. by rewrite filter_cons_False by (by intros ?).
Qed.

(** On a well-mapped model, multi-column properties included,
    [scaffold_list_columns] returns, and its list is the keys of the
    many-to-one relationships and of the column properties whose first
    column is no key, in the order the mapper gives its properties. *)
Theorem list_columns_in_mapper_order (self : View) :
  well_mapped (model self) →
  scaffold_list_columns self
  = Ok (prop_key <$> filter shown_in_list (iterate_properties (model self))).
Proof.
  intros Hwf. unfold scaffold_list_columns.
  destruct (list_columns_loop_returns (iterate_properties (model self)) [] Hwf)
    as [l Hl].
  rewrite Hl. by apply list_columns_loop_filter in Hl as ->.
Qed.

Lemma list_columns_in_mapper_order_witness :
  well_mapped Samples.OrderCustomer
  ∧ scaffold_list_columns (Samples.view_of Samples.OrderCustomer)
    = Ok ["customer_id"; "amount"].
Proof.
  assert (Hwf : well_mapped Samples.OrderCustomer) by (repeat constructor).
  split; [exact Hwf|].
  rewrite (list_columns_in_mapper_order (Samples.view_of Samples.OrderCustomer) Hwf).
  vm_compute. reflexivity.
Defined.

(** When the properties have distinct keys, no key is listed twice. *)
Theorem list_columns_distinct (self : View) l :
  NoDup (prop_key <$> iterate_properties (model self)) →
  scaffold_list_columns self = Ok l →
  NoDup l.
Proof.
  unfold scaffold_list_columns. intros Hnd Hl.
  apply list_columns_loop_filter in Hl as ->. simpl.
  eapply sublist_NoDup; [exact Hnd|].
  apply fmap_sublist, sublist_filter.
Qed.

Lemma list_columns_distinct_witness :
  scaffold_list_columns (Samples.view_of Samples.Post)
    = Ok ["title"; "body"; "user"]
  ∧ NoDup ["title"; "body"; "user"].
Proof.
  assert (Hrun : scaffold_list_columns (Samples.view_of Samples.Post)
                 = Ok ["title"; "body"; "user"]) by (vm_compute; reflexivity).
  split; [exact Hrun|].
  apply (list_columns_distinct (Samples.view_of Samples.Post)); [|exact Hrun].
  apply (bool_decide_unpack _). vm_compute. reflexivity.
Defined.

(** The sortable loop keeps the entries that map a key to itself, and maps
    the key of every sortable property it goes through to itself. *)
Lemma sortable_columns_loop_complete m ps : ∀ d0 d,
  sortable_columns_loop m ps d0 = Ok d →
  (∀ k, d0 !! k = Some k → d !! k = Some k)
  ∧ (∀ p, p ∈ ps → sortable p → d !! prop_key p = Some (prop_key p)).
Proof.
  induction ps as [|p ps IH]; intros d0 d Hd; simpl in Hd.
  - injection Hd as <-. split; [done|]. intros p Hp. by apply elem_of_nil in Hp.
  - assert (Hskip : ¬ sortable p → sortable_columns_loop m ps d0 = Ok d →
      (∀ k, d0 !! k = Some k → d !! k = Some k)
      ∧ (∀ p', p' ∈ p :: ps → sortable p' → d !! prop_key p' = Some (prop_key p'))).
    { intros Hn H. destruct (IH _ _ H) as [Hkeep Hall]. split; [done|].
      intros p' Hin Hs. apply elem_of_cons in Hin as [->|Hin]; [done|auto]. }
    destruct p as [key dir pairs rm|key cols|key]; simpl in *;
      [by apply Hskip; auto | | by apply Hskip; auto].
    case_bool_decide as Hlen; [done|].
    destruct cols as [|c [|c' cols']]; simpl in *; [done| |lia].
    destruct (is_key_column c) eqn:Hc; [apply Hskip; [congruence|done]|].
    destruct (IH _ _ Hd) as [Hkeep Hall]. split.
    + intros k Hk. apply Hkeep.
      destruct (decide (key = k)) as [->|Hne];
        [apply lookup_insert_eq | by rewrite lookup_insert_ne].
    + intros p' Hin Hs. apply elem_of_cons in Hin as [->|Hin]; [|auto].
      simpl. apply Hkeep, lookup_insert_eq.
Qed.

(** The dictionary of [scaffold_sortable_columns] is the identity on the
    keys of the column properties of one column that is no key: it has
    those entries and no other. *)
Theorem sortable_columns_exact (self : View) d :
  scaffold_sortable_columns self = Ok d →
  ∀ k x, d !! k = Some x
         ↔ x = k ∧ ∃ p, p ∈ iterate_properties (model self)
                        ∧ sortable p ∧ prop_key p = k.
Proof.
  unfold scaffold_sortable_columns. intros Hd k x. split.
  - intros Hk.
    destruct (sortable_columns_loop_spec _ _ _ _ Hd k x Hk) as [Hempty|?]; [|done].
    by rewrite lookup_empty in Hempty.
  - intros (-> & p & Hin & Hs & <-).
    by apply (sortable_columns_loop_complete _ _ _ _ Hd).
Qed.

Lemma sortable_columns_exact_witness :
  ({[ "title" := "title"; "body" := "body" ]} : gmap string string) !! "title"
  = Some "title".
Proof.
  apply (sortable_columns_exact (Samples.view_of Samples.Post)
           {[ "title" := "title"; "body" := "body" ]}).
  - vm_compute. reflexivity.
  - split; [reflexivity|].
    exists (ColumnProperty "title" [Samples.required]).
    split; [apply elem_of_cons; right; apply elem_of_cons; by left|].
    split; [vm_compute|]; reflexivity.
Defined.

(** On a model with distinct keys, the listed columns that cannot be
    sorted by are the many-to-one relationships, and only they. *)
Theorem unsortable_listed_are_relationships (self : View) d l :
  NoDup (prop_key <$> iterate_properties (model self)) →
  scaffold_sortable_columns self = Ok d →
  scaffold_list_columns self = Ok l →
  ∀ k, (k ∈ l ∧ d !! k = None)
       ↔ ∃ pairs remote_model,
           RelationshipProperty k MANYTOONE pairs remote_model
             ∈ iterate_properties (model self).
Proof.
  unfold scaffold_sortable_columns, scaffold_list_columns.
  intros Hnd Hd Hl k. split.
  - intros [Hk Hnone].
    apply (list_columns_loop_spec _ _ _ Hl) in Hk
      as [Hk|(p & Hin & Hlisted & <-)]; [by apply elem_of_nil in Hk|].
    destruct p as [key [] pairs rm|key [|c cols]|key]; simpl in *; try done.
    + eauto.
    + exfalso.
      pose proof (sortable_columns_loop_single _ _ _ _ Hd) as Hsingle.
      rewrite Forall_forall in Hsingle. destruct (Hsingle _ Hin) as [_ Hone].
      destruct cols as [|c' cols']; [|simpl in Hone; lia].
      destruct (sortable_columns_loop_complete _ _ _ _ Hd) as [_ Hall].
      specialize (Hall _ Hin Hlisted). simpl in Hall. congruence.
  - intros (pairs & rm & Hin). split.
    + apply (list_columns_loop_spec _ _ _ Hl). right.
      by exists (RelationshipProperty k MANYTOONE pairs rm).
    + destruct (d !! k) as [x|] eqn:Hx; [exfalso|done].
      destruct (sortable_columns_loop_spec _ _ _ _ Hd k x Hx)
        as [Hempty|(_ & p' & Hin' & Hs & Hk)];
        [by rewrite lookup_empty in Hempty|].
      assert (p' = RelationshipProperty k MANYTOONE pairs rm) as ->
        by (by eapply same_key_same_property).
      done.
Qed.

Lemma unsortable_listed_are_relationships_witness :
  "user" ∈ ["title"; "body"; "user"]
  ∧ ({[ "title" := "title"; "body" := "body" ]} : gmap string string) !! "user"
    = None.
Proof.
  apply (unsortable_listed_are_relationships (Samples.view_of Samples.Post)
           {[ "title" := "title"; "body" := "body" ]} ["title"; "body"; "user"]).
  - apply (bool_decide_unpack _). vm_compute. reflexivity.
  - vm_compute. reflexivity.
  - vm_compute. reflexivity.
  - exists [(Samples.fk, Samples.pk)], "User".
    do 4 (apply elem_of_cons; right). apply elem_of_cons; by left.
Defined.

(** On well-mapped properties, what the sortable loop raises is the error
    of the first multi-column property. *)
Lemma sortable_columns_loop_first_multi m ps : ∀ d0 e,
  Forall maps_a_column ps →
  sortable_columns_loop m ps d0 = Raised e →
  ∃ ps1 key cols ps2,
    ps = (ps1 ++ ColumnProperty key cols :: ps2)%list
    ∧ (1 < List.length cols)%nat
    ∧ Forall (λ p, ¬ multi_column p) ps1
    ∧ e = multi_column_error m key.
Proof.
  induction ps as [|p ps IH]; intros d0 e Hwf He; simpl in He; [done|].
  apply Forall_cons in Hwf as [Hp Hps].
  assert (Hrest : ¬ multi_column p → ∀ d1,
    sortable_columns_loop m ps d1 = Raised e →
    ∃ ps1 key cols ps2,
      p :: ps = (ps1 ++ ColumnProperty key cols :: ps2)%list
      ∧ (1 < List.length cols)%nat
      ∧ Forall (λ p, ¬ multi_column p) ps1
      ∧ e = multi_column_error m key).
  { intros Hn d1 H.
    destruct (IH _ _ Hps H) as (ps1 & key & cols & ps2 & -> & Hlen & Hbefore & ->).
    exists (p :: ps1), key, cols, ps2. repeat split; [done|].
    by constructor. }
  destruct p as [key dir pairs rm|key cols|key]; simpl in *;
    [by eapply Hrest; eauto | | by eapply Hrest; eauto].
  case_bool_decide as Hlen.
  - injection He as <-. exists [], key, cols, ps. by repeat split.
  - destruct cols as [|c cols']; simpl in *; [done|].
    destruct (is_key_column c); eauto.
Qed.

(** The exception of [scaffold_sortable_columns] on a well-mapped model is
    an [Exception] whose text names the model and the first property, in
    the mapper's order, that maps more than one column. *)
Theorem sortable_error_names_first_multi_column (self : View) e :
  well_mapped (model self) →
  scaffold_sortable_columns self = Raised e →
  ∃ ps1 key cols ps2,
    iterate_properties (model self)
    = (ps1 ++ ColumnProperty key cols :: ps2)%list
    ∧ (1 < List.length cols)%nat
    ∧ Forall (λ p, ¬ multi_column p) ps1
    ∧ exn_cls e = Exception
    ∧ exn_str e
      = ("Automatic form scaffolding is not supported for multi-column properties ("
           ++ model_name (model self) ++ "." ++ key ++ ")")%string.
Proof.
  unfold scaffold_sortable_columns. intros Hwf He.
  destruct (sortable_columns_loop_first_multi _ _ _ _ Hwf He)
    as (ps1 & key & cols & ps2 & Hps & Hlen & Hbefore & ->).
  exists ps1, key, cols, ps2. by repeat split.
Qed.

Lemma sortable_error_names_first_multi_column_witness :
  well_mapped Samples.OrderCustomer
  ∧ ∃ e, scaffold_sortable_columns (Samples.view_of Samples.OrderCustomer)
         = Raised e
         ∧ ∃ ps1 key cols ps2,
             iterate_properties Samples.OrderCustomer
             = (ps1 ++ ColumnProperty key cols :: ps2)%list
             ∧ (1 < List.length cols)%nat
             ∧ Forall (λ p, ¬ multi_column p) ps1
             ∧ exn_cls e = Exception
             ∧ exn_str e
               = ("Automatic form scaffolding is not supported for multi-column properties ("
                    ++ "OrderCustomer" ++ "." ++ key ++ ")")%string.
Proof.
  assert (Hwf : well_mapped Samples.OrderCustomer) by (repeat constructor).
  split; [exact Hwf|].
  eexists. split; [vm_compute; reflexivity|].
  apply (sortable_error_names_first_multi_column
           (Samples.view_of Samples.OrderCustomer) _ Hwf).
  vm_compute. reflexivity.
Defined.

End scaffolding_exact.

(** * Handlers: sorting, paging and outcomes *)

Section handlers_cases.

Import ModelView.

Context {W Obj Form : Type} `{!Orm W Obj Form}.

Implicit Types (self : View) (w : world W) (o : W) (e : exn).

(** A string with no dot is one piece. *)
Lemma split_dot_1_no_dot s : contains_dot s = false → split_dot_1 s = [s].
Proof.
  induction s as [|c s IH]; simpl; [done|].
  destruct (Ascii.eqb c "."); [done|]. intros Hs. by rewrite (IH Hs).
Qed.

(** A string with a dot is cut at its first dot: the piece before has no
    dot, and the two pieces with the dot between are the string. *)
Lemma split_dot_1_dot s :
  contains_dot s = true →
  ∃ name rest,
    split_dot_1 s = [name; rest]
    ∧ s = (name ++ String "." rest)%string
    ∧ contains_dot name = false.
Proof.
  induction s as [|c s IH]; simpl; [done|].
  destruct (Ascii.eqb c ".") eqn:Hc.
  - apply Ascii.eqb_eq in Hc as ->. intros _. by exists ""%string, s.
  - intros Hs. destruct (IH Hs) as (name & rest & -> & -> & Hname).
    exists (String c name), rest. simpl. by rewrite Hc.
Qed.

(** A sort column that [_sortable_columns] does not know, or whose sort
    field is neither a string nor an instrumented attribute, is ignored:
    [get_list] does what it does with no sort column, whatever the
    direction asked for. *)
Theorem get_list_ignores_unknown_sort self page sort_column sort_desc
    sort_desc' execute w :
  _sortable_columns self !! sort_column = None
  ∨ _sortable_columns self !! sort_column = Some SortOther →
  get_list self page (Some sort_column) sort_desc execute w
  = get_list self page None sort_desc' execute w.
Proof.
  unfold get_list, get_list_sorting. by intros [-> | ->].
Qed.

(** Sorting by a string with no dot makes no join: the query built is the
    one of the model with that one order clause, ascending or descending as
    asked, the offset of the page when a page is given (page 0 included),
    and the limit [page_size]. *)
Theorem get_list_sort_by_plain_string self page sort_column sort_desc s w :
  _sortable_columns self !! sort_column = Some (SortString s) →
  contains_dot s = false →
  get_list self page (Some sort_column) sort_desc false w
  = (count ← orm_call (query_count (session_query (model self)));
     mret (count,
           inl (mk_query (model_name (model self)) []
                  [sort_clause sort_desc (SortString s)]
                  ((λ page, page * page_size self) <$> page)
                  (Some (page_size self))))) w.
Proof.
  intros Hfield Hdot. unfold get_list, get_list_sorting.
  rewrite Hfield, Hdot, !bind_run.
  destruct (orm_call _ w) as [[count|e] w1]; [|done].
  by destruct sort_desc, page.
Qed.

(** Sorting by a string with a dot joins the relationship named before
    the first dot, then orders by the whole string. *)
Theorem get_list_sort_by_dotted_string self sort_column s :
  _sortable_columns self !! sort_column = Some (SortString s) →
  contains_dot s = true →
  ∃ name rest,
    s = (name ++ String "." rest)%string
    ∧ contains_dot name = false
    ∧ ∀ page sort_desc w,
        get_list self page (Some sort_column) sort_desc false w
        = (count ← orm_call (query_count (session_query (model self)));
           query ← orm_call (query_join (JoinName name) (session_query (model self)));
           mret (count,
                 inl (get_list_pagination self page
                        (order_by (sort_clause sort_desc (SortString s)) query)))) w.
Proof.
  intros Hfield Hdot.
  destruct (split_dot_1_dot s Hdot) as (name & rest & Hsplit & Hs & Hname).
  exists name, rest. split; [done|]. split; [done|].
  intros page sort_desc w. unfold get_list, get_list_sorting.
  rewrite Hfield, Hdot, Hsplit, !bind_run.
  destruct (orm_call _ w) as [[count|e] w1]; [|done].
  rewrite !bind_run. simpl. rewrite ?bind_run.
  destruct (orm_call _ w1) as [[query|e] w2]; simpl; [|done].
  by destruct sort_desc.
Qed.

(** Sorting by an instrumented attribute joins the entity of the
    attribute, then orders by the attribute. *)
Theorem get_list_sort_by_attribute self page sort_column sort_desc a w :
  _sortable_columns self !! sort_column = Some (SortAttribute a) →
  get_list self page (Some sort_column) sort_desc false w
  = (count ← orm_call (query_count (session_query (model self)));
     query ← orm_call (query_join (JoinEntity (parententity a))
                         (session_query (model self)));
     mret (count,
           inl (get_list_pagination self page
                  (order_by (sort_clause sort_desc (SortAttribute a)) query)))) w.
Proof.
  intros Hfield. unfold get_list, get_list_sorting.
  rewrite Hfield, !bind_run.
  destruct (orm_call _ w) as [[count|e] w1]; [|done].
  rewrite !bind_run. simpl. rewrite ?bind_run.
  destruct (orm_call _ w1) as [[query|e] w2]; simpl; [|done].
  by destruct sort_desc.
Qed.

(** [execute] decides one thing: [get_list] with [execute] builds the
    query it returns without, runs [query.all()] on it, and returns the
    rows with the same count; without [execute] it returns a query, never
    rows. *)
Theorem get_list_execute self page sort_column sort_desc w :
  get_list self page sort_column sort_desc true w
  = (built ← get_list self page sort_column sort_desc false;
     match built.2 with
     | inl query => rows ← orm_call (query_all query); mret (built.1, inr rows)
     | inr rows => mret built
     end) w
  ∧ ∀ count r w',
      get_list self page sort_column sort_desc false w = (Ok (count, r), w') →
      ∃ query, r = inl query.
Proof.
  unfold get_list. rewrite !bind_run.
  destruct (orm_call _ w) as [[count|e] w1]; [|done].
  rewrite !bind_run.
  destruct (get_list_sorting _ _ _ _ w1) as [[query|e] w2]; [|done].
  split; [done|]. intros count' r w' [= _ <- _]. by eexists.
Qed.

(** When the sortable columns of the view are the scaffolded ones, asking
    [get_list] to sort by a column property that maps a primary key or a
    column with foreign keys changes nothing: the request is ignored. *)
Theorem scaffolded_key_column_sort_ignored self p d page sort_desc execute w :
  NoDup (prop_key <$> iterate_properties (model self)) →
  p ∈ iterate_properties (model self) →
  maps_key_column p →
  scaffold_sortable_columns self = Ok d →
  _sortable_columns self = SortString <$> d →
  get_list self page (Some (prop_key p)) sort_desc execute w
  = get_list self page None sort_desc execute w.
Proof.
  unfold scaffold_sortable_columns. intros Hnd Hin Hkey Hd Hcolumns.
  assert (Hnone : d !! prop_key p = None).
  { destruct (d !! prop_key p) as [x|] eqn:Hx; [exfalso|done].
    destruct (sortable_columns_loop_spec _ _ _ _ Hd _ _ Hx)
      as [Hempty|(_ & p' & Hin' & Hs & Hk)];
      [by rewrite lookup_empty in Hempty|].
    assert (p' = p) as -> by (by eapply same_key_same_property).
    destruct p as [|key [|c [|]]|]; simpl in *; try done.
    destruct Hkey as (c' & Hc' & Hkc).
    apply list_elem_of_singleton in Hc' as ->. congruence. }
  unfold get_list, get_list_sorting.
  by rewrite Hcolumns, lookup_fmap, Hnone.
Qed.

End handlers_cases.

Section handlers_cases_memory.

Import ModelView MemoryOrm.

Lemma get_list_ignores_unknown_sort_witness :
  get_list (Samples.view_of Samples.Post) (Some 1) (Some "id") true true
    (mk_world three_rows [])
  = get_list (Samples.view_of Samples.Post) (Some 1) None false true
      (mk_world three_rows []).
Proof.
  apply (get_list_ignores_unknown_sort (Samples.view_of Samples.Post)).
  left. vm_compute. reflexivity.
Defined.

Lemma get_list_sort_by_plain_string_witness :
  get_list (Samples.view_of Samples.Post) (Some 0) (Some "title") true false
    (mk_world three_rows [])
  = (count ← orm_call (query_count (session_query Samples.Post));
     mret (count,
           inl (mk_query "Post" [] [Desc (SortString "title")] (Some 0) (Some 20))))
      (mk_world three_rows []).
Proof.
  apply (get_list_sort_by_plain_string (Samples.view_of Samples.Post)
           (Some 0) "title" true "title").
  - vm_compute. reflexivity.
  - reflexivity.
Defined.

Lemma get_list_sort_by_dotted_string_witness :
  ∃ name rest,
    "user.name" = (name ++ String "." rest)%string
    ∧ contains_dot name = false
    ∧ get_list (Samples.view_of Samples.Post) None (Some "author") false false
        (mk_world three_rows [])
      = (count ← orm_call (query_count (session_query Samples.Post));
         query ← orm_call (query_join (JoinName name) (session_query Samples.Post));
         mret (count,
               inl (get_list_pagination (Samples.view_of Samples.Post) None
                      (order_by (Asc (SortString "user.name")) query))))
          (mk_world three_rows []).
Proof.
  destruct (get_list_sort_by_dotted_string (W := state)
              (Samples.view_of Samples.Post) "author" "user.name")
    as (name & rest & Hs & Hname & Hrun).
  - vm_compute. reflexivity.
  - reflexivity.
  - exists name, rest. split; [exact Hs|]. split; [exact Hname|].
    exact (Hrun None false (mk_world three_rows [])).
Defined.

Lemma get_list_sort_by_attribute_witness :
  get_list
    (mk_view Samples.Post true 20
       {[ "author" := SortAttribute (mk_attr "User" "name") ]})
    None (Some "author") true false (mk_world three_rows [])
  = (count ← orm_call (query_count (session_query Samples.Post));
     query ← orm_call (query_join (JoinEntity "User") (session_query Samples.Post));
     mret (count,
           inl (get_list_pagination
                  (mk_view Samples.Post true 20
                     {[ "author" := SortAttribute (mk_attr "User" "name") ]})
                  None
                  (order_by (Desc (SortAttribute (mk_attr "User" "name"))) query))))
      (mk_world three_rows []).
Proof.
  apply (get_list_sort_by_attribute
           (mk_view Samples.Post true 20
              {[ "author" := SortAttribute (mk_attr "User" "name") ]})
           None "author" true (mk_attr "User" "name")).
  vm_compute. reflexivity.
Defined.

Lemma scaffolded_key_column_sort_ignored_witness :
  get_list scaffolded_post_view (Some 0) (Some "id") true true
    (mk_world three_rows [])
  = get_list scaffolded_post_view (Some 0) None true true
      (mk_world three_rows []).
Proof.
  apply (scaffolded_key_column_sort_ignored scaffolded_post_view
           (ColumnProperty "id" [Samples.pk])
           {[ "title" := "title"; "body" := "body" ]}).
  - apply (bool_decide_unpack _). vm_compute. reflexivity.
  - apply elem_of_cons; by left.
  - exists Samples.pk. split; [apply elem_of_cons; by left|].
    vm_compute. reflexivity.
  - vm_compute. reflexivity.
  - reflexivity.
Defined.

End handlers_cases_memory.

(** * Handlers: failures, caught and not *)

Section handlers_failures.

Import ModelView.

Context {W Obj Form : Type} `{!Orm W Obj Form} `{!Flask W}.

Implicit Types (self : View) (w : world W) (o : W) (e : exn).

(** What the handler of [create_model] and [update_model] does with the
    exception it caught: [str(ex)] or [flash] may raise, and only when both
    return is the message flashed and [False] returned. *)
Lemma handler_run (prefix : string) e w :
  (text ← lift_result (str e);
   flash (prefix ++ text) "error";;
   mret false) w
  = match str e with
    | Raised e' => (Raised e', w)
    | Ok text =>
        match flash_error w (prefix ++ text) "error" with
        | Some e' => (Raised e', w)
        | None => (Ok false, flashed_error (prefix ++ text) (orm w) (flashes w))
        end
    end.
Proof.
  rewrite bind_run. unfold lift_result. destruct (str e) as [text|e']; [|done].
  rewrite bind_run. unfold flash.
  by destruct (flash_error w (prefix ++ text) "error").
Qed.

(** C4, amended: when a step of [create_model] or [update_model] raises an
    instance of [Exception], it is caught, and when the handler's own
    [str(ex)] and [flash] return, the one message made of the handler's
    text and [str(ex)] is flashed with category [error] and the method
    returns [False]; when no step raises, the method returns [True] and
    flashes nothing; an exception that is no instance of [Exception] goes on
    to the caller. *)
Theorem create_update_report_failure self form obj w :
  (∀ e o', create_raises self form (orm w) e o' →
     if is_Exception (exn_cls e)
     then ∀ text,
       str e = Ok text →
       flash_error (mk_world o' (flashes w))
         ("Failed to create model. " ++ text) "error" = None →
       create_model self form w
       = (Ok false,
          flashed_error ("Failed to create model. " ++ text) o' (flashes w))
     else create_model self form w = (Raised e, mk_world o' (flashes w)))
  ∧ (∀ o', create_succeeds self form (orm w) o' →
     create_model self form w = (Ok true, mk_world o' (flashes w)))
  ∧ (∀ e o', update_raises form obj (orm w) e o' →
     if is_Exception (exn_cls e)
     then ∀ text,
       str e = Ok text →
       flash_error (mk_world o' (flashes w))
         ("Failed to update model. " ++ text) "error" = None →
       update_model self form obj w
       = (Ok false,
          flashed_error ("Failed to update model. " ++ text) o' (flashes w))
     else update_model self form obj w = (Raised e, mk_world o' (flashes w)))
  ∧ (∀ o', update_succeeds form obj (orm w) o' →
     update_model self form obj w = (Ok true, mk_world o' (flashes w))).
Proof.
  repeat split.
  - intros e o' Hraise. apply create_model_try_raises in Hraise.
    unfold create_model. destruct (is_Exception (exn_cls e)) eqn:Hcls.
    + intros text Hstr Hflash.
      rewrite (try_except_caught _ _ _ _ _ Hraise Hcls), handler_run, Hstr.
      simpl. by rewrite Hflash.
    + by rewrite (try_except_escapes _ _ _ _ _ Hraise Hcls).
  - intros o' Hok. apply create_model_try_succeeds in Hok.
    unfold create_model. by rewrite (try_except_returns _ _ _ _ _ Hok).
  - intros e o' Hraise. apply update_model_try_raises in Hraise.
    unfold update_model. destruct (is_Exception (exn_cls e)) eqn:Hcls.
    + intros text Hstr Hflash.
      rewrite (try_except_caught _ _ _ _ _ Hraise Hcls), handler_run, Hstr.
      simpl. by rewrite Hflash.
    + by rewrite (try_except_escapes _ _ _ _ _ Hraise Hcls).
  - intros o' Hok. apply update_model_try_succeeds in Hok.
    unfold update_model. by rewrite (try_except_returns _ _ _ _ _ Hok).
Qed.

(** The sorting step of [get_list] makes at most one session call, the
    join, and then sets the order clause. *)
Lemma get_list_sorting_run self sort_column sort_desc query w :
  get_list_sorting self sort_column sort_desc query w
  = match sort_join self sort_column with
    | None => (Ok (sorted_query self sort_column sort_desc query), w)
    | Some target =>
        match query_join target query (orm w) with
        | (Ok joined, o) =>
            (Ok (sorted_query self sort_column sort_desc joined),
             mk_world o (flashes w))
        | (Raised e, o) => (Raised e, mk_world o (flashes w))
        end
    end.
Proof.
  unfold get_list_sorting, sort_join, sorted_query, sort_order, sort_clause.
  destruct sort_column as [column|]; simpl; [|by destruct w].
  destruct (_sortable_columns self !! column) as [[s|a|]|]; simpl;
    [| |by destruct w|by destruct w].
  - destruct (contains_dot s) eqn:Hdot.
    + destruct (split_dot_1_dot s Hdot) as (name & rest & -> & _ & _). simpl.
      rewrite !bind_run. simpl. rewrite ?bind_run, orm_call_run.
      destruct (query_join _ _ _) as [[joined|e] o]; simpl; [|done].
      by destruct sort_desc.
    + rewrite bind_run. simpl. destruct sort_desc; by destruct w.
  - rewrite !bind_run, orm_call_run.
    destruct (query_join _ _ _) as [[joined|e] o]; simpl; [|done].
    by destruct sort_desc.
Qed.

(** What a session call of [get_list] raises, [get_list] raises. *)
Lemma get_list_raised self page sort_column sort_desc execute w e o' :
  get_list_raises self page sort_column sort_desc execute (orm w) e o' →
  get_list self page sort_column sort_desc execute w
  = (Raised e, mk_world o' (flashes w)).
Proof.
  unfold get_list.
  intros [Hc|count o1 target Hc Hj Hq|count o1 Hc Hj -> Hall
         |count o1 target joined o2 Hc Hj Hq -> Hall];
    rewrite bind_run, orm_call_run, Hc; simpl; [done|..];
    rewrite bind_run, get_list_sorting_run, Hj; simpl.
  - by rewrite Hq.
  - rewrite bind_run, orm_call_run. simpl. by rewrite Hall.
  - rewrite Hq. rewrite bind_run, orm_call_run. simpl. by rewrite Hall.
Qed.

(** And [get_list] raises nothing else. *)
Lemma get_list_raise_inv self page sort_column sort_desc execute w e w' :
  get_list self page sort_column sort_desc execute w = (Raised e, w') →
  get_list_raises self page sort_column sort_desc execute (orm w) e (orm w')
  ∧ flashes w' = flashes w.
Proof.
  unfold get_list. rewrite bind_run, orm_call_run.
  destruct (query_count _ _) as [[count|e0] o1] eqn:Hc; simpl.
  2: { intros [= <- <-]. split; [by apply count_raises|done]. }
  rewrite bind_run, get_list_sorting_run.
  destruct (sort_join self sort_column) as [target|] eqn:Hj; simpl.
  - destruct (query_join _ _ _) as [[joined|e1] o2] eqn:Hq.
    2: { intros [= <- <-]. split; [by eapply join_raises|done]. }
    destruct execute; [|done].
    rewrite bind_run, orm_call_run. simpl.
    destruct (query_all _ _) as [[rows|e2] o3] eqn:Hall; simpl; [done|].
    intros [= <- <-]. split; [by eapply all_raises_joined|done].
  - destruct execute; [|done].
    rewrite bind_run, orm_call_run. simpl.
    destruct (query_all _ _) as [[rows|e2] o3] eqn:Hall; simpl; [done|].
    intros [= <- <-]. split; [by eapply all_raises|done].
Qed.

Lemma delete_model_raised self obj w e o' :
  delete_raises obj (orm w) e o' →
  delete_model self obj w = (Raised e, mk_world o' (flashes w)).
Proof.
  unfold delete_model.
  intros [Hd|u o1 Hd Hc]; rewrite bind_run, orm_call_run, Hd; simpl; [done|].
  rewrite orm_call_run. simpl. by rewrite Hc.
Qed.

Lemma delete_model_raise_inv self obj w e w' :
  delete_model self obj w = (Raised e, w') →
  delete_raises obj (orm w) e (orm w') ∧ flashes w' = flashes w.
Proof.
  unfold delete_model. rewrite bind_run, orm_call_run.
  destruct (session_delete _ _) as [[u|e0] o1] eqn:Hd; simpl.
  2: { intros [= <- <-]. split; [by apply delete_call_raises|done]. }
  rewrite orm_call_run. simpl.
  destruct (session_commit o1) as [[u'|e1] o2] eqn:Hc; simpl; [done|].
  intros [= <- <-]. split; [by eapply delete_commit_raises|done].
Qed.

(** A world is its two parts. *)
Lemma world_eta w : mk_world (orm w) (flashes w) = w.
Proof. by destruct w. Qed.

(** C6, amended: [create_model] and [update_model] run their session calls
    inside a [try]: when a step raises an instance of [Exception], and the
    handler's own [str(ex)] and [flash] return, a message is flashed and
    [False] returned. [get_list], [get_one] and [delete_model] call the
    session with no [try]: they flash nothing, and they raise exactly what
    one of their session calls raises (the count, the join and
    [query.all()]; [query.get]; [session.delete] and the commit), leaving
    the session as that call left it. *)
Theorem only_create_and_update_flash self form obj page sort_column sort_desc
    execute id w :
  (∀ e o' text, create_raises self form (orm w) e o' →
     is_Exception (exn_cls e) = true →
     str e = Ok text →
     flash_error (mk_world o' (flashes w))
       ("Failed to create model. " ++ text) "error" = None →
     create_model self form w
     = (Ok false,
        mk_world o'
          (flashes w ++ [(("Failed to create model. " ++ text)%string, "error")])))
  ∧ (∀ e o' text, update_raises form obj (orm w) e o' →
     is_Exception (exn_cls e) = true →
     str e = Ok text →
     flash_error (mk_world o' (flashes w))
       ("Failed to update model. " ++ text) "error" = None →
     update_model self form obj w
     = (Ok false,
        mk_world o'
          (flashes w ++ [(("Failed to update model. " ++ text)%string, "error")])))
  ∧ silent (get_list self page sort_column sort_desc execute)
  ∧ silent (get_one self id)
  ∧ silent (delete_model self obj)
  ∧ (∀ e w', get_list self page sort_column sort_desc execute w = (Raised e, w')
             ↔ get_list_raises self page sort_column sort_desc execute
                 (orm w) e (orm w')
               ∧ flashes w' = flashes w)
  ∧ (∀ e w', get_one self id w = (Raised e, w')
             ↔ query_get (session_query (model self)) id (orm w)
               = (Raised e, orm w')
               ∧ flashes w' = flashes w)
  ∧ (∀ e w', delete_model self obj w = (Raised e, w')
             ↔ delete_raises obj (orm w) e (orm w') ∧ flashes w' = flashes w).
Proof.
  split; [|split; [|split; [|split; [|split; [|split; [|split]]]]]].
  - intros e o' text Hraise Hcls Hstr Hflash.
    apply create_model_try_raises in Hraise. unfold create_model.
    rewrite (try_except_caught _ _ _ _ _ Hraise Hcls), handler_run, Hstr.
    simpl. by rewrite Hflash.
  - intros e o' text Hraise Hcls Hstr Hflash.
    apply update_model_try_raises in Hraise. unfold update_model.
    rewrite (try_except_caught _ _ _ _ _ Hraise Hcls), handler_run, Hstr.
    simpl. by rewrite Hflash.
  - apply get_list_silent.
  - apply get_one_silent.
  - apply delete_model_silent.
  - intros e w'. split; [apply get_list_raise_inv|].
    intros [Hraise Hflashes]. rewrite (get_list_raised _ _ _ _ _ _ _ _ Hraise).
    by rewrite <- Hflashes, world_eta.
  - intros e w'. unfold get_one. rewrite orm_call_run. split.
    + destruct (query_get _ _ _) as [r o]. simpl. by intros [= -> <-].
    + intros [Hget Hflashes]. rewrite Hget. simpl.
      by rewrite <- Hflashes, world_eta.
  - intros e w'. split; [apply delete_model_raise_inv|].
    intros [Hraise Hflashes]. rewrite (delete_model_raised _ _ _ _ _ Hraise).
    by rewrite <- Hflashes, world_eta.
Qed.

(** C7, amended: when [create_model] or [update_model] returns [False],
    a step raised an instance of [Exception] and the session is exactly as
    that step left it: the code calls the session no more and rolls nothing
    back. With a transactional ORM the persistent state is then the one
    before the call; what the steps before the failure wrote to the
    instance or to the session is still there. *)
Theorem failed_create_update_leave_session {D} (persistent : W → D)
    `{!Transactional persistent} self form obj w w' :
  (create_model self form w = (Ok false, w') →
   ∃ e, is_Exception (exn_cls e) = true
        ∧ create_raises self form (orm w) e (orm w')
        ∧ persistent (orm w') = persistent (orm w))
  ∧ (update_model self form obj w = (Ok false, w') →
     ∃ e, is_Exception (exn_cls e) = true
          ∧ update_raises form obj (orm w) e (orm w')
          ∧ persistent (orm w') = persistent (orm w)).
Proof.
  split.
  - unfold create_model, try_except.
    destruct (create_model_try self form w) as [[b|e] w1] eqn:Hbody;
      apply create_model_try_inv in Hbody
        as [_ [(e' & He' & Hraise)|[Hb Hok]]]; try discriminate.
    + injection Hb as ->. intros Habs. discriminate Habs.
    + injection He' as <-.
      destruct (is_Exception (exn_cls e)) eqn:Hcls; [|done].
      rewrite handler_run. destruct (str e) as [text|e']; [|done].
      destruct (flash_error _ _ _); [done|]. intros [= <-]. simpl.
      exists e. split; [done|]. split; [done|].
      by apply (create_raises_persistent persistent self form _ e).
  - unfold update_model, try_except.
    destruct (update_model_try form obj w) as [[b|e] w1] eqn:Hbody;
      apply update_model_try_inv in Hbody
        as [_ [(e' & He' & Hraise)|[Hb Hok]]]; try discriminate.
    + injection Hb as ->. intros Habs. discriminate Habs.
    + injection He' as <-.
      destruct (is_Exception (exn_cls e)) eqn:Hcls; [|done].
      rewrite handler_run. destruct (str e) as [text|e']; [|done].
      destruct (flash_error _ _ _); [done|]. intros [= <-]. simpl.
      exists e. split; [done|]. split; [done|].
      by apply (update_raises_persistent persistent form obj _ e).
Qed.

Lemma try_except_failure_outcome (body : M W bool) (prefix : string) w e w1 r w' :
  body w = (Raised e, w1) →
  flashes w1 = flashes w →
  try_except body
    (λ ex, text ← lift_result (str ex);
           flash (prefix ++ text) "error";;
           mret false) w
  = (r, w') →
  orm w' = orm w1
  ∧ failure_outcome prefix e (orm w1) (flashes w) r (flashes w').
Proof.
  intros Hbody Hflashes. unfold try_except, failure_outcome. rewrite Hbody.
  destruct (is_Exception (exn_cls e)) eqn:Hcls.
  - rewrite handler_run. rewrite <- Hflashes, world_eta.
    destruct (str e) as [text|e'] eqn:Hstr.
    + destruct (flash_error w1 _ _) as [e'|] eqn:Hflash.
      * intros [= <- <-]. split; [done|]. do 3 right. split; [done|].
        by exists text, e'.
      * intros [= <- <-]. split; [done|]. right; left. split; [done|].
        by exists text.
    + intros [= <- <-]. split; [done|]. right; right; left. split; [done|].
      by exists e'.
  - intros [= <- <-]. split; [done|]. by left.
Qed.

(** The outcomes of [create_model]. It returns [True] only when every step
    returned, the commit included, and then flashes nothing. Otherwise a
    step raised: an exception that is no instance of [Exception] goes on to
    the caller; an instance is caught, and then either the one message is
    flashed and [False] returned, or [str(ex)] or [flash] raises in the
    handler and that exception reaches the caller with nothing flashed. In
    each case the session is as the failing step left it. *)
Theorem create_model_outcome self form w r w' :
  create_model self form w = (r, w') →
  (r = Ok true ∧ create_succeeds self form (orm w) (orm w')
   ∧ flashes w' = flashes w)
  ∨ (∃ e, create_raises self form (orm w) e (orm w')
          ∧ failure_outcome "Failed to create model. " e (orm w')
              (flashes w) r (flashes w')).
Proof.
  unfold create_model. intros Hrun.
  destruct (create_model_try self form w) as [[b|e] w1] eqn:Hbody.
  - rewrite (try_except_returns _ _ _ _ _ Hbody) in Hrun.
    injection Hrun as <- <-.
    apply create_model_try_inv in Hbody
      as [Hflashes [(e' & He' & _)|[Hb Hok]]]; [done|].
    injection Hb as ->. by left.
  - pose proof Hbody as Hinv.
    apply create_model_try_inv in Hinv
      as [Hflashes [(e' & [= <-] & Hraise)|[Hb _]]]; [|done].
    destruct (try_except_failure_outcome _ _ _ _ _ _ _ Hbody Hflashes Hrun)
      as [Horm Hout].
    right. exists e. by rewrite Horm.
Qed.

(** The same for [update_model], whose steps are [populate_obj] and the
    commit. *)
Theorem update_model_outcome self form obj w r w' :
  update_model self form obj w = (r, w') →
  (r = Ok true ∧ update_succeeds form obj (orm w) (orm w')
   ∧ flashes w' = flashes w)
  ∨ (∃ e, update_raises form obj (orm w) e (orm w')
          ∧ failure_outcome "Failed to update model. " e (orm w')
              (flashes w) r (flashes w')).
Proof.
  unfold update_model. intros Hrun.
  destruct (update_model_try form obj w) as [[b|e] w1] eqn:Hbody.
  - rewrite (try_except_returns _ _ _ _ _ Hbody) in Hrun.
    injection Hrun as <- <-.
    apply update_model_try_inv in Hbody
      as [Hflashes [(e' & He' & _)|[Hb Hok]]]; [done|].
    injection Hb as ->. by left.
  - pose proof Hbody as Hinv.
    apply update_model_try_inv in Hinv
      as [Hflashes [(e' & [= <-] & Hraise)|[Hb _]]]; [|done].
    destruct (try_except_failure_outcome _ _ _ _ _ _ _ Hbody Hflashes Hrun)
      as [Horm Hout].
    right. exists e. by rewrite Horm.
Qed.

End handlers_failures.

Section handlers_failures_memory.

Import ModelView MemoryOrm MemoryFlask.

Lemma create_update_report_failure_witness :
  create_model (Samples.view_of Samples.Post) 5
    (mk_world (refusing integrity_error) [])
  = (Ok false,
     flashed_error "Failed to create model. UNIQUE constraint failed"
       (mk_state {[ 4%nat := 5 ]} (stored three_rows) [] [] 5 None) []).
Proof.
  destruct (create_update_report_failure (Samples.view_of Samples.Post) 5 1%nat
              (mk_world (refusing integrity_error) [])) as (Hraise & _).
  exact (Hraise integrity_error _ (refused_create_raises integrity_error)
           "UNIQUE constraint failed" eq_refl eq_refl).
Defined.

Lemma only_create_and_update_flash_witness :
  create_model (Samples.view_of Samples.Post) 5
    (mk_world (refusing integrity_error) [])
  = (Ok false,
     mk_world (mk_state {[ 4%nat := 5 ]} (stored three_rows) [] [] 5 None)
       [("Failed to create model. UNIQUE constraint failed", "error")]).
Proof.
  destruct (only_create_and_update_flash (Samples.view_of Samples.Post) 5 1%nat
              None None false false VNone
              (mk_world (refusing integrity_error) [])) as (Hraise & _).
  exact (Hraise integrity_error _ "UNIQUE constraint failed"
           (refused_create_raises integrity_error) eq_refl eq_refl eq_refl).
Defined.

(** C7 as stated fails: a form whose second field cannot be populated
    makes [update_model] return [False] once the first field is assigned.
    The row stored is still 20, but the instance in the session holds 7:
    nothing is rolled back, and the next commit of the session stores the
    half-made update. *)
Lemma failed_update_leaves_partial_state :
  (update_model (Orm0 := fieldwise_orm) (Samples.view_of Samples.Post)
     [Some 7; None] 2%nat (mk_world three_rows [])).1
  = Ok false
  ∧ stored three_rows !! 2%nat = Some 20
  ∧ memory
      (orm (update_model (Orm0 := fieldwise_orm) (Samples.view_of Samples.Post)
              [Some 7; None] 2%nat (mk_world three_rows [])).2) !! 2%nat
    = Some 7
  ∧ ∃ o,
      session_commit (Orm := fieldwise_orm)
        (orm (update_model (Orm0 := fieldwise_orm)
                (Samples.view_of Samples.Post)
                [Some 7; None] 2%nat (mk_world three_rows [])).2)
      = (Ok tt, o)
      ∧ stored o !! 2%nat = Some 7.
Proof.
  split; [vm_compute; reflexivity|]. split; [vm_compute; reflexivity|].
  split; [vm_compute; reflexivity|].
  eexists. split; vm_compute; reflexivity.
Qed.

Lemma failed_create_update_leave_session_witness :
  ∃ e, is_Exception (exn_cls e) = true
       ∧ create_raises (Samples.view_of Samples.Post) 5
           (refusing integrity_error) e
           (mk_state {[ 4%nat := 5 ]} (stored three_rows) [] [] 5 None)
       ∧ stored (mk_state {[ 4%nat := 5 ]} (stored three_rows) [] [] 5 None)
         = stored (refusing integrity_error).
Proof.
  assert (Hrun :
    create_model (Samples.view_of Samples.Post) 5
      (mk_world (refusing integrity_error) [])
    = (Ok false,
       flashed_error "Failed to create model. UNIQUE constraint failed"
         (mk_state {[ 4%nat := 5 ]} (stored three_rows) [] [] 5 None) []))
    by (vm_compute; reflexivity).
  exact (proj1 (@failed_create_update_leave_session _ _ _ memory_orm in_request
                  _ stored memory_transactional
                  (Samples.view_of Samples.Post) 5 1%nat _ _) Hrun).
Defined.

Lemma create_model_outcome_witness :
  ∃ e, create_raises (Samples.view_of Samples.Post) 5
         (refusing unicode_integrity_error) e
         (mk_state {[ 4%nat := 5 ]} (stored three_rows) [] [] 5 None)
       ∧ failure_outcome "Failed to create model. " e
           (mk_state {[ 4%nat := 5 ]} (stored three_rows) [] [] 5 None) []
           (Raised (mk_exn (ExceptionSubclass "UnicodeEncodeError")
                      "'ascii' codec can't encode character" None))
           [].
Proof.
  assert (Hrun :
    create_model (Samples.view_of Samples.Post) 5
      (mk_world (refusing unicode_integrity_error) [])
    = (Raised (mk_exn (ExceptionSubclass "UnicodeEncodeError")
                 "'ascii' codec can't encode character" None),
       mk_world
         (mk_state {[ 4%nat := 5 ]} (stored three_rows) [] [] 5 None) []))
    by (vm_compute; reflexivity).
  destruct (create_model_outcome _ _ _ _ _ Hrun) as [[Habs _]|Hfailed];
    [discriminate Habs | exact Hfailed].
Defined.

Lemma update_model_outcome_witness :
  ∃ e, update_raises (-1) 2%nat three_rows e three_rows
       ∧ failure_outcome (Flask0 := outside_request)
           "Failed to update model. " e three_rows []
           (Raised (error "RuntimeError" "working outside of request context"))
           [].
Proof.
  assert (Hrun :
    update_model (Flask0 := outside_request)
      (Samples.view_of Samples.Post) (-1) 2%nat (mk_world three_rows [])
    = (Raised (error "RuntimeError" "working outside of request context"),
       mk_world three_rows []))
    by (vm_compute; reflexivity).
  destruct (update_model_outcome (Flask0 := outside_request) _ _ _ _ _ _ Hrun)
    as [[Habs _]|Hfailed];
    [discriminate Habs | exact Hfailed].
Defined.

End handlers_failures_memory.
